(** * Course catalog service (app.py): store and route handlers

    A shallow embedding of [src/CS203_LAB_01/app.py].

    - Python [str] values are lists of Unicode code points.
    - The backing file [COURSE_FILE] is [None] when it does not exist and
      [Some text] otherwise, [text] being what text-mode [read] returns.
    - [json.load] and [json.dump(..., indent=4)] are embedded as a decoder and
      an encoder over that text, following the [json] module of CPython.
    - A route handler is a computation over the request state (file, current
      span, flashed messages, log) that returns a response or raises.

    What is taken as given:
    - one request runs at a time, and reading or writing the file does not
      fail once the file is known to exist;
    - the interpreter puts no bound on the nesting of a JSON document nor on
      the number of digits of an integer;
    - a [float] is kept as the literal it was read from; its [repr], its
      truth value and the upper-case mapping of non-ASCII characters come
      from a [runtime] record;
    - templates are not rendered: a response names the template and its
      context, or the endpoint of a redirect;
    - of a span, the name, the attributes and the status are kept. *)

From Stdlib Require Import String Ascii.
From Stdlib Require Import List NArith ZArith Bool Lia Arith.
From Stdlib Require Decimal DecimalN DecimalZ DecimalFacts.
Import ListNotations.

Set Implicit Arguments.

(* ================================================================= *)
(** ** Python text *)

Module Text.

(** A code point; a Python [str] is a sequence of them. *)
Definition char : Type := N.
Definition str : Type := list char.

(** A literal of the source, written as a Rocq string of ASCII characters. *)
Definition lit (s : string) : str := map N_of_ascii (list_ascii_of_string s).

Definition char_eqb (a b : char) : bool := N.eqb a b.

Fixpoint str_eqb (a b : str) : bool :=
  match a, b with
  | [], [] => true
  | x :: a', y :: b' => char_eqb x y && str_eqb a' b'
  | _, _ => false
  end.

Definition in_range (lo hi c : N) : bool := (lo <=? c)%N && (c <=? hi)%N.

(** [str.isspace] on one character (the whitespace table of CPython's
    unicodeobject: bidirectional type WS, B or S, or category Zs). *)
Definition is_space (c : char) : bool :=
  in_range 9 13 c || in_range 28 32 c
  || (c =? 133)%N || (c =? 160)%N || (c =? 5760)%N
  || in_range 8192 8202 c || (c =? 8232)%N || (c =? 8233)%N
  || (c =? 8239)%N || (c =? 8287)%N || (c =? 12288)%N.

Fixpoint lstrip (s : str) : str :=
  match s with
  | c :: s' => if is_space c then lstrip s' else s
  | [] => []
  end.

Definition rstrip (s : str) : str := rev (lstrip (rev s)).

(** [s.strip()] *)
Definition strip (s : str) : str := rstrip (lstrip s).

(** [s[:n]] for [n >= 0] *)
Definition slice_to (n : nat) (s : str) : str := firstn n s.

Section Upper.
(** The full upper-case mapping of a non-ASCII character (the Unicode
    tables behind [str.upper], not part of the repository). *)
Variable unicode_upper : char -> str.

Definition upper_char (c : char) : str :=
  if (c <? 128)%N
  then (if in_range 97 122 c then [(c - 32)%N] else [c])
  else unicode_upper c.

(** [s.upper()]: every character is replaced by its upper-case mapping. *)
Definition upper (s : str) : str := flat_map upper_char s.
End Upper.

(** Decimal digits. *)
Definition digit_char (d : N) : char := (48 + d)%N.

Fixpoint uint_chars (d : Decimal.uint) : str :=
  match d with
  | Decimal.Nil => []
  | Decimal.D0 d' => digit_char 0 :: uint_chars d'
  | Decimal.D1 d' => digit_char 1 :: uint_chars d'
  | Decimal.D2 d' => digit_char 2 :: uint_chars d'
  | Decimal.D3 d' => digit_char 3 :: uint_chars d'
  | Decimal.D4 d' => digit_char 4 :: uint_chars d'
  | Decimal.D5 d' => digit_char 5 :: uint_chars d'
  | Decimal.D6 d' => digit_char 6 :: uint_chars d'
  | Decimal.D7 d' => digit_char 7 :: uint_chars d'
  | Decimal.D8 d' => digit_char 8 :: uint_chars d'
  | Decimal.D9 d' => digit_char 9 :: uint_chars d'
  end.

Definition MINUS : char := 45%N.

(** [str(z)] and [repr(z)] of a Python [int]. *)
Definition int_repr (z : Z) : str :=
  match Z.to_int z with
  | Decimal.Pos d => uint_chars d
  | Decimal.Neg d => MINUS :: uint_chars d
  end.

End Text.
Import Text.

(* ================================================================= *)
(** ** Python values that [json.load] returns and [json.dump] accepts *)

Module Py.

(** A [float] is kept as the literal it was read from; [dict] items are in
    insertion order. *)
#[local] Unset Elimination Schemes.
Inductive pyval : Type :=
| VNone
| VBool (b : bool)
| VInt (z : Z)
| VFloat (literal : str)
| VStr (s : str)
| VList (items : list pyval)
| VDict (items : list (str * pyval)).
#[local] Set Elimination Schemes.

Inductive exn : Type :=
| JSONDecodeError
| NameError (name : string)
| AttributeError
| KeyError (key : str)
| FileNotFoundError
| TypeError.

Definition result (A : Type) : Type := (exn + A)%type.

(** [d[k] = v] on a dict: an existing key keeps its position. *)
Fixpoint dict_set (d : list (str * pyval)) (k : str) (v : pyval) : list (str * pyval) :=
  match d with
  | [] => [(k, v)]
  | (k', v') :: d' => if str_eqb k' k then (k', v) :: d' else (k', v') :: dict_set d' k v
  end.

Fixpoint dict_get (d : list (str * pyval)) (k : str) : option pyval :=
  match d with
  | [] => None
  | (k', v') :: d' => if str_eqb k' k then Some v' else dict_get d' k
  end.

(** [dict(pairs)] *)
Definition dict_of_pairs (pairs : list (str * pyval)) : list (str * pyval) :=
  fold_left (fun d kv => dict_set d (fst kv) (snd kv)) pairs [].

(** [len(v)] *)
Definition len (v : pyval) : result nat :=
  match v with
  | VList l => inr (length l)
  | VDict d => inr (length d)
  | VStr s => inr (length s)
  | _ => inl TypeError
  end.

(** [iter(v)], run to the end. *)
Definition iterate (v : pyval) : result (list pyval) :=
  match v with
  | VList l => inr l
  | VDict d => inr (map (fun kv => VStr (fst kv)) d)
  | VStr s => inr (map (fun c => VStr [c]) s)
  | _ => inl TypeError
  end.

(** [v[k]] for a [str] key [k]. *)
Definition getitem (v : pyval) (k : str) : result pyval :=
  match v with
  | VDict d => match dict_get d k with Some x => inr x | None => inl (KeyError k) end
  | _ => inl TypeError
  end.

(** [v == s] for a [str] [s]. *)
Definition eq_str (v : pyval) (s : str) : bool :=
  match v with
  | VStr t => str_eqb t s
  | _ => false
  end.

Section Truth.
(** Whether a float literal denotes zero (float arithmetic is not part of
    the repository). *)
Variable float_is_zero : str -> bool.

(** [bool(v)] *)
Definition truthy (v : pyval) : bool :=
  match v with
  | VNone => false
  | VBool b => b
  | VInt z => negb (z =? 0)%Z
  | VFloat f => negb (float_is_zero f)
  | VStr s => match s with [] => false | _ => true end
  | VList l => match l with [] => false | _ => true end
  | VDict d => match d with [] => false | _ => true end
  end.
End Truth.

(** [v.append(x)] *)
Definition append (v : pyval) (x : pyval) : result pyval :=
  match v with
  | VList l => inr (VList (l ++ [x]))
  | _ => inl AttributeError
  end.

End Py.
Import Py.

(* ================================================================= *)
(** ** The [json] module: [dump] and [load] *)

Module Json.

Definition QUOTE : char := 34%N.
Definition BACKSLASH : char := 92%N.
Definition COMMA : char := 44%N.
Definition COLON : char := 58%N.
Definition LBRACKET : char := 91%N.
Definition RBRACKET : char := 93%N.
Definition LBRACE : char := 123%N.
Definition RBRACE : char := 125%N.
Definition NEWLINE : char := 10%N.
Definition SPACE : char := 32%N.
Definition LOWER_U : char := 117%N.

(** *** Encoder: [json.encoder] with [ensure_ascii=True] *)

Definition hex_digit (d : N) : char :=
  if (d <? 10)%N then (48 + d)%N else (87 + d)%N.

(** ['{0:04x}'.format(n)], for [n < 0x10000] *)
Definition hex4 (n : N) : str :=
  [hex_digit (n / 4096); hex_digit ((n / 256) mod 16);
   hex_digit ((n / 16) mod 16); hex_digit (n mod 16)].

(** The replacement of one character in [py_encode_basestring_ascii]:
    [ESCAPE_DCT] for the short escapes, the character itself in [' '..'~'],
    and [\uXXXX] (a surrogate pair above the BMP) otherwise. *)
Definition escape_char (c : char) : str :=
  if (c =? 92)%N then [BACKSLASH; BACKSLASH]
  else if (c =? 34)%N then [BACKSLASH; QUOTE]
  else if (c =? 8)%N then [BACKSLASH; 98%N]
  else if (c =? 12)%N then [BACKSLASH; 102%N]
  else if (c =? 10)%N then [BACKSLASH; 110%N]
  else if (c =? 13)%N then [BACKSLASH; 114%N]
  else if (c =? 9)%N then [BACKSLASH; 116%N]
  else if in_range 32 126 c then [c]
  else if (c <? 65536)%N then BACKSLASH :: LOWER_U :: hex4 c
  else
    let n := (c - 65536)%N in
    let s1 := N.lor 55296 (N.land (N.shiftr n 10) 1023) in
    let s2 := N.lor 56320 (N.land n 1023) in
    (BACKSLASH :: LOWER_U :: hex4 s1) ++ (BACKSLASH :: LOWER_U :: hex4 s2).

Definition encode_basestring_ascii (s : str) : str :=
  QUOTE :: flat_map escape_char s ++ [QUOTE].

Fixpoint join (sep : str) (parts : list str) : str :=
  match parts with
  | [] => []
  | [p] => p
  | p :: ps => p ++ sep ++ join sep ps
  end.

Section Encoder.
(** [float.__repr__] of the float a literal denotes. *)
Variable float_repr : str -> str.

(** [indent]: [None], or [Some n] for [indent=n] spaces per level. *)
Variable indent : option nat.

Definition newline_indent (level : nat) : str :=
  match indent with
  | Some n => NEWLINE :: repeat SPACE (n * level)
  | None => []
  end.

Definition item_separator (level : nat) : str :=
  match indent with
  | Some _ => COMMA :: newline_indent level
  | None => [COMMA; SPACE]
  end.

Definition key_separator : str := [COLON; SPACE].

(** [_iterencode], with the chunks concatenated. *)
Fixpoint iterencode (level : nat) (o : pyval) {struct o} : str :=
  match o with
  | VNone => lit "null"
  | VBool true => lit "true"
  | VBool false => lit "false"
  | VInt z => int_repr z
  | VFloat f => float_repr f
  | VStr s => encode_basestring_ascii s
  | VList [] => lit "[]"
  | VList l =>
      LBRACKET :: newline_indent (S level)
        ++ join (item_separator (S level)) (map (iterencode (S level)) l)
        ++ newline_indent level ++ [RBRACKET]
  | VDict [] => lit "{}"
  | VDict d =>
      LBRACE :: newline_indent (S level)
        ++ join (item_separator (S level))
             (map (fun kv => match kv with
                             | (k, v) => encode_basestring_ascii k ++ key_separator
                                           ++ iterencode (S level) v
                             end) d)
        ++ newline_indent level ++ [RBRACE]
  end.

(** [json.dumps(o, indent=indent)] *)
Definition dumps (o : pyval) : str := iterencode 0 o.
End Encoder.

(** *** Decoder: [json.decoder] and [json.scanner], strict mode *)

(** The whitespace of [json.decoder]: space, tab, line feed, carriage return. *)
Definition is_ws (c : char) : bool :=
  (c =? 32)%N || (c =? 9)%N || (c =? 10)%N || (c =? 13)%N.

Fixpoint skip_ws (s : str) : str :=
  match s with
  | c :: s' => if is_ws c then skip_ws s' else s
  | [] => []
  end.

Definition hex_value (c : char) : option N :=
  if in_range 48 57 c then Some (c - 48)%N
  else if in_range 97 102 c then Some (c - 87)%N
  else if in_range 65 70 c then Some (c - 55)%N
  else None.

(** The four hexadecimal digits of a [\uXXXX] escape. *)
Definition hex4_value (a b c d : char) : option N :=
  match hex_value a, hex_value b, hex_value c, hex_value d with
  | Some x, Some y, Some z, Some w => Some (((x * 16 + y) * 16 + z) * 16 + w)%N
  | _, _, _, _ => None
  end.

Definition is_high_surrogate (c : N) : bool := in_range 55296 56319 c.
Definition is_low_surrogate (c : N) : bool := in_range 56320 57343 c.

Definition join_surrogates (hi lo : N) : N :=
  (65536 + N.lor (N.shiftl (hi - 55296) 10) (lo - 56320))%N.

(** The [BACKSLASH] table of [json.decoder]. *)
Definition unescape (e : char) : option char :=
  if (e =? 34)%N then Some 34%N
  else if (e =? 92)%N then Some 92%N
  else if (e =? 47)%N then Some 47%N
  else if (e =? 98)%N then Some 8%N
  else if (e =? 102)%N then Some 12%N
  else if (e =? 110)%N then Some 10%N
  else if (e =? 114)%N then Some 13%N
  else if (e =? 116)%N then Some 9%N
  else None.

Definition push (c : char) (r : option (str * str)) : option (str * str) :=
  match r with
  | Some (t, rest) => Some (c :: t, rest)
  | None => None
  end.

(** [scanstring(s, end, strict=True)], [s] starting after the opening
    quote: the decoded string and the text after the closing quote. *)
Fixpoint scanstring (s : str) : option (str * str) :=
  match s with
  | [] => None
  | c :: r =>
      if (c =? QUOTE)%N then Some ([], r)
      else if (c =? BACKSLASH)%N then
        match r with
        | [] => None
        | e :: r1 =>
            if (e =? LOWER_U)%N then
              match r1 with
              | a :: b :: c' :: d :: r2 =>
                  match hex4_value a b c' d with
                  | None => None
                  | Some uni =>
                      match r2 with
                      | bs :: u :: a2 :: b2 :: c2 :: d2 :: r4 =>
                          if is_high_surrogate uni && (bs =? BACKSLASH)%N && (u =? LOWER_U)%N
                          then
                            match hex4_value a2 b2 c2 d2 with
                            | None => None
                            | Some uni2 =>
                                if is_low_surrogate uni2
                                then push (join_surrogates uni uni2) (scanstring r4)
                                else push uni (scanstring r2)
                            end
                          else push uni (scanstring r2)
                      | _ => push uni (scanstring r2)
                      end
                  end
              | _ => None
              end
            else
              match unescape e with
              | Some c' => push c' (scanstring r1)
              | None => None
              end
        end
      else if (c <? 32)%N then None
      else push c (scanstring r)
  end.

Definition is_digit (c : char) : bool := in_range 48 57 c.

(** The longest prefix of digits, and the rest. *)
Fixpoint span_digits (s : str) : str * str :=
  match s with
  | c :: s' =>
      if is_digit c then let (ds, r) := span_digits s' in (c :: ds, r) else ([], s)
  | [] => ([], [])
  end.

Fixpoint uint_of_chars (ds : str) : Decimal.uint :=
  match ds with
  | [] => Decimal.Nil
  | c :: ds' =>
      let u := uint_of_chars ds' in
      match (c - 48)%N with
      | 0%N => Decimal.D0 u | 1%N => Decimal.D1 u | 2%N => Decimal.D2 u
      | 3%N => Decimal.D3 u | 4%N => Decimal.D4 u | 5%N => Decimal.D5 u
      | 6%N => Decimal.D6 u | 7%N => Decimal.D7 u | 8%N => Decimal.D8 u
      | _ => Decimal.D9 u
      end
  end.

(** [int(text)] for the integer part of a number. *)
Definition int_of_text (negative : bool) (digits : str) : Z :=
  Z.of_int (if negative then Decimal.Neg (uint_of_chars digits)
            else Decimal.Pos (uint_of_chars digits)).

(** [NUMBER_RE]: an optional minus sign and an integer part (a single zero, or
    a non-zero digit and any digits), then optionally a dot with one or more
    digits, then optionally an exponent ([e] or [E], an optional sign, one or
    more digits). The value is an [int] when there is neither fraction nor
    exponent, a [float] otherwise. *)
Definition scan_sign (s : str) : bool * str :=
  match s with
  | c :: t => if (c =? MINUS)%N then (true, t) else (false, s)
  | [] => (false, s)
  end.

Definition scan_integer (s : str) : option (str * str) :=
  match s with
  | c :: t =>
      if (c =? 48)%N then Some ([c], t)
      else if is_digit c then let (ds, r) := span_digits t in Some (c :: ds, r)
      else None
  | [] => None
  end.

Definition scan_frac (r : str) : str * str :=
  match r with
  | dot :: d :: _ =>
      if (dot =? 46)%N && is_digit d
      then let (ds, r') := span_digits (tl r) in (dot :: ds, r')
      else ([], r)
  | _ => ([], r)
  end.

Definition scan_exp (r : str) : str * str :=
  match r with
  | e :: t =>
      if (e =? 101)%N || (e =? 69)%N then
        let (sign, t') :=
          match t with
          | sg :: t'' => if (sg =? 45)%N || (sg =? 43)%N then ([sg], t'') else ([], t)
          | [] => ([], t)
          end in
        match span_digits t' with
        | ([], _) => ([], r)
        | (ds, r') => (e :: sign ++ ds, r')
        end
      else ([], r)
  | [] => ([], r)
  end.

Definition match_number (s : str) : option (pyval * str) :=
  let (negative, s1) := scan_sign s in
  match scan_integer s1 with
  | None => None
  | Some (digits, r) =>
      let (frac, r1) := scan_frac r in
      let (exp, r2) := scan_exp r1 in
      match frac, exp with
      | [], [] => Some (VInt (int_of_text negative digits), r2)
      | _, _ =>
          Some (VFloat ((if negative then [MINUS] else []) ++ digits ++ frac ++ exp), r2)
      end
  end.

(** [s] without the prefix [p], when it starts with it. *)
Fixpoint strip_prefix (p s : str) : option str :=
  match p, s with
  | [], _ => Some s
  | x :: p', y :: s' => if char_eqb x y then strip_prefix p' s' else None
  | _ :: _, [] => None
  end.

Definition constant (name : string) (v : pyval) (s : str) : option (pyval * str) :=
  match strip_prefix (lit name) s with
  | Some r => Some (v, r)
  | None => None
  end.

Definition or_else {A : Type} (a b : option A) : option A :=
  match a with
  | Some _ => a
  | None => b
  end.

(** The values that [scan_once] reads without recursion: the constants and
    the numbers, tried in the order of [py_scanstring]'s caller. *)
Definition scan_atom (s : str) : option (pyval * str) :=
  or_else (constant "null" VNone s)
 (or_else (constant "true" (VBool true) s)
 (or_else (constant "false" (VBool false) s)
 (or_else (match_number s)
 (or_else (constant "NaN" (VFloat (lit "NaN")) s)
 (or_else (constant "Infinity" (VFloat (lit "Infinity")) s)
          (constant "-Infinity" (VFloat (lit "-Infinity")) s)))))).

(** [scan_once], with [JSONArray] and [JSONObject]. [fuel] bounds the number
    of nested calls; one more than the length of the text is enough, since
    every call is made after at least one character was consumed.
    - [scan_once f s]: the value at the start of [s];
    - [array_tail f s]: after an element, up to the closing bracket;
    - [object_pairs f s]: after the opening quote of a key, up to the closing
      brace. *)
Fixpoint scan_once (fuel : nat) (s : str) {struct fuel} : option (pyval * str) :=
  match fuel with
  | O => None
  | S f =>
      match s with
      | [] => None
      | c :: r =>
          if (c =? QUOTE)%N then
            match scanstring r with
            | Some (t, r') => Some (VStr t, r')
            | None => None
            end
          else if (c =? LBRACE)%N then
            match skip_ws r with
            | c1 :: r1 =>
                if (c1 =? RBRACE)%N then Some (VDict [], r1)
                else if (c1 =? QUOTE)%N then
                  match object_pairs f r1 with
                  | Some (pairs, r2) => Some (VDict (dict_of_pairs pairs), r2)
                  | None => None
                  end
                else None
            | [] => None
            end
          else if (c =? LBRACKET)%N then
            match skip_ws r with
            | c1 :: r1 =>
                if (c1 =? RBRACKET)%N then Some (VList [], r1)
                else
                  match scan_once f (c1 :: r1) with
                  | Some (v, r2) =>
                      match array_tail f r2 with
                      | Some (vs, r3) => Some (VList (v :: vs), r3)
                      | None => None
                      end
                  | None => None
                  end
            | [] => None
            end
          else scan_atom s
      end
  end

with array_tail (fuel : nat) (s : str) {struct fuel} : option (list pyval * str) :=
  match fuel with
  | O => None
  | S f =>
      match skip_ws s with
      | c :: r =>
          if (c =? RBRACKET)%N then Some ([], r)
          else if (c =? COMMA)%N then
            match scan_once f (skip_ws r) with
            | Some (v, r1) =>
                match array_tail f r1 with
                | Some (vs, r2) => Some (v :: vs, r2)
                | None => None
                end
            | None => None
            end
          else None
      | [] => None
      end
  end

with object_pairs (fuel : nat) (s : str) {struct fuel}
  : option (list (str * pyval) * str) :=
  match fuel with
  | O => None
  | S f =>
      match scanstring s with
      | Some (key, r) =>
          match skip_ws r with
          | c :: r1 =>
              if (c =? COLON)%N then
                match scan_once f (skip_ws r1) with
                | Some (v, r2) =>
                    match skip_ws r2 with
                    | c2 :: r3 =>
                        if (c2 =? RBRACE)%N then Some ([(key, v)], r3)
                        else if (c2 =? COMMA)%N then
                          match skip_ws r3 with
                          | c3 :: r4 =>
                              if (c3 =? QUOTE)%N then
                                match object_pairs f r4 with
                                | Some (pairs, r5) => Some ((key, v) :: pairs, r5)
                                | None => None
                                end
                              else None
                          | [] => None
                          end
                        else None
                    | [] => None
                    end
                | None => None
                end
              else None
          | [] => None
          end
      | None => None
      end
  end.

Definition BOM : char := 65279%N.

(** [json.loads(s)]: [None] stands for a raised [JSONDecodeError]. *)
Definition loads (s : str) : option pyval :=
  match s with
  | c :: _ => if (c =? BOM)%N then None else
      match scan_once (S (length s)) (skip_ws s) with
      | Some (v, r) => match skip_ws r with [] => Some v | _ :: _ => None end
      | None => None
      end
  | [] => None
  end.

End Json.

(* ================================================================= *)
(** ** What the embedding takes from the Python runtime *)

Record runtime : Type := {
  unicode_upper : char -> str;   (* upper-case mapping outside ASCII *)
  float_repr : str -> str;       (* repr of the float a literal denotes *)
  float_is_zero : str -> bool    (* whether that float is zero *)
}.

(* ================================================================= *)
(** ** Request state: file, span, flashed messages, log *)

(** OpenTelemetry: status and attributes of a span. *)
Inductive description : Type :=
| Text (s : str)
| OfException (e : exn).

Inductive span_status : Type :=
| Unset
| Ok
| Error (d : description).

Inductive attribute : Type :=
| AttrStr (s : str)
| AttrInt (z : Z).

Record span : Type := {
  span_name : str;
  attributes : list (str * attribute);
  status : span_status
}.

Definition new_span (name : str) : span :=
  {| span_name := name; attributes := []; status := Unset |}.

(** [attributes[key] = value] *)
Fixpoint attr_set (l : list (str * attribute)) (k : str) (v : attribute)
  : list (str * attribute) :=
  match l with
  | [] => [(k, v)]
  | (k', v') :: l' => if str_eqb k' k then (k', v) :: l' else (k', v') :: attr_set l' k v
  end.

(** [Span.set_status]: a status that is already OK is final. *)
Definition span_set_status (sp : span) (st : span_status) : span :=
  match status sp, st with
  | Ok, _ => sp
  | _, Unset => sp
  | _, _ => {| span_name := span_name sp; attributes := attributes sp; status := st |}
  end.

Definition span_set_attribute (sp : span) (k : str) (v : attribute) : span :=
  {| span_name := span_name sp; attributes := attr_set (attributes sp) k v;
     status := status sp |}.

Record state : Type := {
  file : option str;                (* contents of COURSE_FILE, if it exists *)
  current_span : span;
  flashes : list (str * str);       (* (category, message), oldest first *)
  log : list str                    (* logging.error records *)
}.

Definition with_file (st : state) (f : option str) : state :=
  {| file := f; current_span := current_span st; flashes := flashes st; log := log st |}.
Definition with_span_of (st : state) (sp : span) : state :=
  {| file := file st; current_span := sp; flashes := flashes st; log := log st |}.
Definition with_flashes (st : state) (fl : list (str * str)) : state :=
  {| file := file st; current_span := current_span st; flashes := fl; log := log st |}.
Definition with_log (st : state) (l : list str) : state :=
  {| file := file st; current_span := current_span st; flashes := flashes st; log := l |}.

(** A computation that reads and updates the state and returns or raises. *)
Definition M (A : Type) : Type := state -> result A * state.

Definition ret {A : Type} (a : A) : M A := fun st => (inr a, st).
Definition raise {A : Type} (e : exn) : M A := fun st => (inl e, st).
Definition bind {A B : Type} (m : M A) (k : A -> M B) : M B :=
  fun st =>
    match m st with
    | (inr a, st') => k a st'
    | (inl e, st') => (inl e, st')
    end.
Definition lift {A : Type} (r : result A) : M A := fun st => (r, st).

Declare Scope py_scope.
Delimit Scope py_scope with py.
Notation "x <- m ;; k" := (bind m (fun x => k))
  (at level 61, m at next level, right associativity) : py_scope.
Notation "m ;; k" := (bind m (fun _ => k))
  (at level 61, right associativity) : py_scope.
Open Scope py_scope.

(** [os.path.exists(COURSE_FILE)] *)
Definition path_exists : M bool :=
  fun st => (inr (match file st with Some _ => true | None => false end), st).

(** [open(COURSE_FILE, 'r')] and [file.read()] *)
Definition read_file : M str :=
  fun st =>
    match file st with
    | Some text => (inr text, st)
    | None => (inl FileNotFoundError, st)
    end.

(** [open(COURSE_FILE, 'w')] and the writes of [json.dump]. *)
Definition write_file (text : str) : M unit :=
  fun st => (inr tt, with_file st (Some text)).

Definition set_attribute (k : string) (v : attribute) : M unit :=
  fun st => (inr tt, with_span_of st (span_set_attribute (current_span st) (lit k) v)).

Definition set_status (s : span_status) : M unit :=
  fun st => (inr tt, with_span_of st (span_set_status (current_span st) s)).

(** [flash(message, category)] *)
Definition flash (message : str) (category : string) : M unit :=
  fun st => (inr tt, with_flashes st (flashes st ++ [(lit category, message)])).

(** [logging.error(message)] *)
Definition logging_error (message : str) : M unit :=
  fun st => (inr tt, with_log st (log st ++ [message])).

(** [with tracer.start_as_current_span(name) as span: body]. An exception
    that leaves the body sets the status to ERROR and is raised again. *)
Definition start_as_current_span {A : Type} (name : str) (body : M A) : M A :=
  fun st =>
    match body (with_span_of st (new_span name)) with
    | (inr a, st') => (inr a, st')
    | (inl e, st') =>
        (inl e, with_span_of st' (span_set_status (current_span st') (Error (OfException e))))
    end.

(** Reading a variable: [NameError] when no scope binds it. *)
Definition load_name (scope : list (string * str)) (x : string) : M attribute :=
  match find (fun b => String.eqb (fst b) x) scope with
  | Some b => ret (AttrStr (snd b))
  | None => raise (NameError x)
  end.

(** Flask: the request and what a view returns. *)
Inductive http_method : Type := GET | HEAD | POST.

Definition method_name (m : http_method) : str :=
  match m with
  | GET => lit "GET"
  | HEAD => lit "HEAD"
  | POST => lit "POST"
  end.

Record request : Type := {
  method : http_method;
  form : list (str * str);
  remote_addr : str
}.

(** [request.form.get(key, '')]: the first value sent for [key]. *)
Definition form_get (rq : request) (key : string) : str :=
  match find (fun kv => str_eqb (fst kv) (lit key)) (form rq) with
  | Some kv => snd kv
  | None => []
  end.

Inductive response : Type :=
| Render (template : string) (context : list (string * pyval))
| Redirect (endpoint : string).

(* ================================================================= *)
(** ** app.py *)

Section App.
Variable rt : runtime.

(** [json.dump(o, file, indent=4)], as text *)
Definition json_dump_indent4 (o : pyval) : str :=
  Json.dumps (float_repr rt) (Some 4) o.

(** [json.dumps(o)] *)
Definition json_dumps (o : pyval) : str :=
  Json.dumps (float_repr rt) None o.

(** [json.load(file)] *)
Definition json_load (text : str) : M pyval :=
  match Json.loads text with
  | Some v => ret v
  | None => raise JSONDecodeError
  end.

(** Lines 55-60. *)
Definition load_courses : M pyval :=
  present <- path_exists ;;
  if negb present then ret (VList [])
  else
    text <- read_file ;;
    json_load text.

(** Lines 64-69. *)
Definition save_courses (data : pyval) : M unit :=
  courses <- load_courses ;;
  courses' <- lift (Py.append courses data) ;;
  write_file (json_dump_indent4 courses').

(** Lines 73-80. *)
Definition index (rq : request) : M response :=
  start_as_current_span (lit "index_route") (
    set_attribute "user.ip" (AttrStr (remote_addr rq)) ;;
    set_attribute "http.method" (AttrStr (method_name (method rq))) ;;
    set_attribute "http.status_code" (AttrInt 200) ;;
    ret (Render "index.html" [])).

(** Lines 84-92. *)
Definition course_catalog (rq : request) : M response :=
  start_as_current_span (lit "course_catalog_route") (
    set_attribute "user.ip" (AttrStr (remote_addr rq)) ;;
    courses <- load_courses ;;
    n <- lift (len courses) ;;
    set_attribute "courses.count" (AttrInt (Z.of_nat n)) ;;
    set_attribute "http.status_code" (AttrInt 200) ;;
    ret (Render "course_catalog.html" [("courses"%string, courses)])).

(** Line 113: [course_name[:4].upper() + str(n + 1)], [n] the value of
    [len(load_courses())]. *)
Definition new_code (course_name : str) (n : nat) : str :=
  upper (unicode_upper rt) (slice_to 4 course_name) ++ int_repr (Z.of_nat n + 1).

(** Lines 114-119. *)
Definition new_course (code course_name instructor semester : str) : pyval :=
  VDict [(lit "code", VStr code);
         (lit "name", VStr course_name);
         (lit "instructor", VStr instructor);
         (lit "semester", VStr semester)].

Definition is_empty (s : str) : bool :=
  match s with [] => true | _ => false end.

(** The [str] variables that lines 101-113 bind in [add_course]. Its other
    local names are [span] and [course]; the names of the module are those
    of lines 2-52 and of the six functions. *)
Definition add_course_scope (course_name instructor semester code : str)
  : list (string * str) :=
  [("course_name"%string, course_name); ("instructor"%string, instructor);
   ("semester"%string, semester); ("new_code"%string, code)].

(** Lines 97-133. *)
Definition add_course (rq : request) : M response :=
  start_as_current_span (lit "add_course_route") (
    match method rq with
    | POST =>
        let course_name := strip (form_get rq "name") in
        let instructor := strip (form_get rq "instructor") in
        let semester := strip (form_get rq "semester") in
        if is_empty course_name || is_empty instructor then
          set_status (Error (Text (lit "Validation failed"))) ;;
          flash (lit "Course name and instructor are required!") "error" ;;
          ret (Render "add_course.html" [])
        else
          courses <- load_courses ;;
          n <- lift (len courses) ;;
          let code := new_code course_name n in
          let course := new_course code course_name instructor semester in
          set_attribute "course.data" (AttrStr (json_dumps course)) ;;
          code_value <- load_name (add_course_scope course_name instructor semester code) "code" ;;
          set_attribute "code" code_value ;;
          set_attribute "course name" (AttrStr course_name) ;;
          set_attribute "instructor" (AttrStr instructor) ;;
          set_attribute "semester" (AttrStr semester) ;;
          save_courses course ;;
          set_status Ok ;;
          flash (lit "Course '" ++ course_name ++ lit "' added successfully!") "success" ;;
          ret (Redirect "course_catalog")
    | _ =>
        set_attribute "http.status_code" (AttrInt 200) ;;
        ret (Render "add_course.html" [])
    end).

(** Line 142: [next((course for course in items if course['code'] == code),
    None)], [items] being what iterating over [courses] yields. *)
Fixpoint next_match (items : list pyval) (code : str) : result pyval :=
  match items with
  | [] => inr VNone
  | course :: rest =>
      match getitem course (lit "code") with
      | inl e => inl e
      | inr c => if eq_str c code then inr course else next_match rest code
      end
  end.

(** Lines 138-152. *)
Definition course_details (code : str) : M response :=
  start_as_current_span (lit "course_details_route:" ++ code) (
    courses <- load_courses ;;
    items <- lift (iterate courses) ;;
    course <- lift (next_match items code) ;;
    if negb (truthy (float_is_zero rt) course) then
      set_status (Error (Text (lit "Course not found"))) ;;
      set_attribute "http.status_code" (AttrInt 404) ;;
      logging_error (lit "Course with code '" ++ code ++ lit "' not found.") ;;
      flash (lit "No course found with code '" ++ code ++ lit "'.") "error" ;;
      ret (Redirect "course_catalog")
    else
      ret (Render "course_details.html" [("course"%string, course)])).

End App.

(* ================================================================= *)
(** ** Well-formed stored data *)

(** A Unicode scalar value: a code point up to U+10FFFF that is not a
    surrogate. Text decoded from UTF-8 (form fields, the path parameter)
    consists of scalar values. *)
Definition is_scalar (c : char) : bool :=
  (c <? 55296)%N || in_range 57344 1114111 c.

Definition unicode_text (s : str) : bool := forallb is_scalar s.

Fixpoint distinct (keys : list str) : bool :=
  match keys with
  | [] => true
  | k :: ks => negb (existsb (str_eqb k) ks) && distinct ks
  end.

(** Values made of [None], booleans, integers, Unicode text, lists and
    dicts with text keys: what the system itself writes. *)
Fixpoint storable (v : pyval) : bool :=
  match v with
  | VNone | VBool _ | VInt _ => true
  | VFloat _ => false
  | VStr s => unicode_text s
  | VList l => forallb storable l
  | VDict d =>
      distinct (map fst d)
      && forallb (fun kv => match kv with (k, x) => unicode_text k && storable x end) d
  end.

(* ================================================================= *)
(** ** Vocabulary of the codec proofs *)

Module JsonText.
Import Json.

(** The surrogate pair written for a character above the BMP. *)
Definition high_of (c : char) : N :=
  N.lor 55296 (N.land (N.shiftr (c - 65536) 10) 1023).
Definition low_of (c : char) : N :=
  N.lor 56320 (N.land (c - 65536) 1023).

(** What may follow a value in the encoder's output: nothing, a comma, a
    closing bracket or brace, or whitespace. *)
Definition delimited (r : str) : bool :=
  match r with
  | [] => true
  | c :: _ => (c =? COMMA)%N || (c =? RBRACKET)%N || (c =? RBRACE)%N || is_ws c
  end.

(** A decimal numeral as Python prints it: a single zero, or digits that
    do not start with a zero. *)
Definition canonical (d : Decimal.uint) : Prop :=
  d = Decimal.D0 Decimal.Nil \/
  (d <> Decimal.Nil /\ forall d', d <> Decimal.D0 d').

(** A text that starts a value: its first character is neither whitespace
    nor a closing bracket or brace. *)
Definition starts_value (s : str) : bool :=
  match s with
  | c :: _ => negb (is_ws c) && negb (c =? RBRACKET)%N && negb (c =? RBRACE)%N
  | [] => false
  end.

(** With more fuel than characters, the three scanners neither depend on
    the fuel nor return a longer text than they were given. *)
Definition fuel_free (f : nat) (s : str) : Prop :=
  (forall f', length s < f' -> scan_once f s = scan_once f' s)
  /\ (forall v r, scan_once f s = Some (v, r) -> length r < length s)
  /\ (forall f', length s < f' -> array_tail f s = array_tail f' s)
  /\ (forall vs r, array_tail f s = Some (vs, r) -> length r < length s)
  /\ (forall f', length s < f' -> object_pairs f s = object_pairs f' s)
  /\ (forall ps r, object_pairs f s = Some (ps, r) -> length r < length s).

Definition storable_item (kv : str * pyval) : bool :=
  match kv with (k, x) => unicode_text k && storable x end.

Section Texts.
Variable float_repr : str -> str.
Variable indent : option nat.

(** Decoding the encoding of [v] returns [v] and stops right after it. *)
Definition decodes (v : pyval) : Prop :=
storable v = true ->
forall level r f, delimited r = true ->
  length (iterencode float_repr indent level v ++ r) < f ->
  scan_once f (iterencode float_repr indent level v ++ r) = Some (v, r).

(** The elements of a list after the first, each behind its separator. *)
Definition items_text (level : nat) (xs : list pyval) : str :=
flat_map (fun q => item_separator indent (S level) ++ q)
         (map (iterencode float_repr indent (S level)) xs).

Definition pair_text (level : nat) (kv : str * pyval) : str :=
match kv with
| (k, v) => encode_basestring_ascii k ++ key_separator
              ++ iterencode float_repr indent (S level) v
end.

Definition pairs_text (level : nat) (d : list (str * pyval)) : str :=
flat_map (fun q => item_separator indent (S level) ++ q) (map (pair_text level) d).
End Texts.

End JsonText.

(* ================================================================= *)
(** ** Vocabulary of the store and handler theorems *)

(** What [load_courses] returns for a given file. *)
Definition load_result (f : option str) : result pyval :=
  match f with
  | None => inr (VList [])
  | Some text =>
      match Json.loads text with
      | Some v => inr v
      | None => inl JSONDecodeError
      end
  end.

(** The store holds the sequence [l]. *)
Definition holds (st : state) (l : list pyval) : Prop :=
  load_result (file st) = inr (VList l).

(** The store of [st'] holds what [l] held, in the same order, possibly
    followed by more records. *)
Definition extends (l : list pyval) (st' : state) : Prop :=
  exists l', holds st' (l ++ l').

(** A course record of the data model. *)
Record course_record : Type := {
  c_code : str;
  c_name : str;
  c_instructor : str;
  c_semester : str
}.

Definition to_py (c : course_record) : pyval :=
  new_course (c_code c) (c_name c) (c_instructor c) (c_semester c).

Definition wf_course (c : course_record) : bool :=
  unicode_text (c_code c) && unicode_text (c_name c)
  && unicode_text (c_instructor c) && unicode_text (c_semester c).

(** A stored record that has a ['code'] field. *)
Definition has_code (v : pyval) : bool :=
  match v with
  | VDict d => match dict_get d (lit "code") with Some _ => true | None => false end
  | _ => false
  end.

(** The ['code'] field of [v] is exactly the string [code]. *)
Definition matches (code : str) (v : pyval) : Prop :=
  getitem v (lit "code") = inr (VStr code).

(** [save_courses] called for each record in turn. *)
Fixpoint save_all (rt : runtime) (ds : list pyval) : M unit :=
  match ds with
  | [] => ret tt
  | d :: ds' => save_courses rt d ;; save_all rt ds'
  end.

(** A submission passes the validation of lines 106-109. *)
Definition valid_submission (rq : request) : Prop :=
  method rq = POST /\ strip (form_get rq "name") <> []
  /\ strip (form_get rq "instructor") <> [].

(** The upper-case mapping keeps Unicode text Unicode text. *)
Definition upper_preserves_text (rt : runtime) : Prop :=
  forall c, is_scalar c = true -> unicode_text (unicode_upper rt c) = true.

(** The state in which a handler leaves [st] when its span, named [name],
    ends with the attributes [attrs] and the status [s]. *)
Definition finished (st : state) (name : str) (attrs : list (str * attribute))
  (s : span_status) : state :=
  {| file := file st;
     current_span := {| span_name := name; attributes := attrs; status := s |};
     flashes := flashes st;
     log := log st |}.

(** *** Sample data *)

(** A runtime whose non-ASCII part is trivial: enough for ASCII samples. *)
Definition ascii_runtime : runtime :=
  {| unicode_upper := fun c => [c];
     float_repr := fun f => f;
     float_is_zero := fun _ => false |}.

Definition state_with (f : option str) : state :=
  {| file := f; current_span := new_span []; flashes := []; log := [] |}.

Definition empty_store : state := state_with None.

Definition submit (name instructor semester : string) : request :=
  {| method := POST;
     form := [(lit "name", lit name); (lit "instructor", lit instructor);
              (lit "semester", lit semester)];
     remote_addr := lit "127.0.0.1" |}.

Definition algorithms : pyval :=
  new_course (lit "ALGO1") (lit "Algorithms") (lit "Dr. Lee") (lit "Fall").

Definition compilers : pyval :=
  new_course (lit "COMP2") (lit "Compilers") (lit "Dr. Wu") (lit "Spring").

Definition algorithms_store : state :=
  state_with (Some (Json.dumps (float_repr ascii_runtime) (Some 4) (VList [algorithms]))).

Definition algorithms_record : course_record :=
  {| c_code := lit "ALGO1"; c_name := lit "Algorithms";
     c_instructor := lit "Dr. Lee"; c_semester := lit "Fall" |}.

(** A file that is not JSON, and a file whose only record has no code. *)
Definition garbled_store : state := state_with (Some (lit "{not json")).
Definition codeless_store : state := state_with (Some (lit "[{}]")).

(* ================================================================= *)
(** ** Vocabulary of the further properties *)

Definition is_ascii (c : char) : bool := (c <? 128)%N.

(** No [float] anywhere in the value. *)
Fixpoint float_free (v : pyval) : bool :=
  match v with
  | VFloat _ => false
  | VList l => forallb float_free l
  | VDict d => forallb (fun kv => match kv with (_, x) => float_free x end) d
  | _ => true
  end.

(** No decimal digit in the text. *)
Definition digit_free (s : str) : bool :=
  forallb (fun c => negb (Json.is_digit c)) s.

(** [None], a boolean or a number: a value without a length. *)
Definition scalar_value (v : pyval) : bool :=
  match v with
  | VNone | VBool _ | VInt _ | VFloat _ => true
  | _ => false
  end.

(** Only whitespace, or nothing at all. *)
Definition blank (s : str) : bool := forallb is_space s.

(** The form has no field [key]. *)
Definition field_missing (rq : request) (key : string) : Prop :=
  forall kv, In kv (form rq) -> fst kv <> lit key.

(** From [st] to [st'] nothing changed but the span, which ended in error
    with the exception [e]. *)
Definition only_span_failed (st st' : state) (e : exn) : Prop :=
  file st' = file st /\ flashes st' = flashes st /\ log st' = log st
  /\ status (current_span st') = Error (OfException e).

(** The response and span of a request that found no course. *)
Definition not_found_state (st : state) (code : str) : state :=
  with_flashes
    (with_log
       (finished st (lit "course_details_route:" ++ code)
          [(lit "http.status_code", AttrInt 404)]
          (Error (Text (lit "Course not found"))))
       (log st ++ [lit "Course with code '" ++ code ++ lit "' not found."]))
    (flashes st ++ [(lit "error", lit "No course found with code '" ++ code ++ lit "'.")]).

(** *** More sample data *)

Definition number_store : state := state_with (Some (lit "5")).
Definition empty_object_store : state := state_with (Some (lit "{}")).
Definition object_store : state :=
  state_with (Some (Json.dumps (float_repr ascii_runtime) None
                      (VDict [(lit "a", VInt 1)]))).
Definition whitespace_store : state := state_with (Some [32%N; 10%N; 9%N]).

(** A second record that carries the code of the first. *)
Definition algorithms_again : pyval :=
  new_course (lit "ALGO1") (lit "Algorithmics") (lit "Dr. Kim") (lit "Spring").

Definition blank_name_request : request :=
  {| method := POST;
     form := [(lit "name", [32%N; 9%N; 160%N]); (lit "instructor", lit "Dr. Lee")];
     remote_addr := lit "127.0.0.1" |}.

Definition browse : request :=
  {| method := GET; form := []; remote_addr := lit "127.0.0.1" |}.

(** The store of one record written without indentation, and a store whose
    second element is not a record. *)
Definition compact_store : state :=
  state_with (Some (Json.dumps (float_repr ascii_runtime) None (VList [algorithms]))).
Definition ragged_store : state :=
  state_with (Some (Json.dumps (float_repr ascii_runtime) (Some 4)
                      (VList [algorithms; VInt 5]))).

(** A record with characters outside ASCII. *)
Definition cafe : pyval :=
  new_course [67%N; 65%N; 70%N; 201%N; 49%N] [67%N; 97%N; 102%N; 233%N; 128512%N]
             (lit "Dr. Lee") (lit "Fall").

Definition nameless_request : request :=
  {| method := POST;
     form := [(lit "instructor", lit "Dr. Lee")];
     remote_addr := lit "127.0.0.1" |}.

(* ================================================================= *)
(** ** Facts about text *)

Lemma pyval_ind (P : pyval -> Prop)
  (HNone : P VNone)
  (HBool : forall b, P (VBool b))
  (HInt : forall z, P (VInt z))
  (HFloat : forall f, P (VFloat f))
  (HStr : forall s, P (VStr s))
  (HList : forall l, Forall P l -> P (VList l))
  (HDict : forall d, Forall (fun kv => P (snd kv)) d -> P (VDict d)) :
  forall v, P v.
Proof.
  fix IH 1. intros [ | b | z | f | s | l | d ].
  - exact HNone.
  - apply HBool.
  - apply HInt.
  - apply HFloat.
  - apply HStr.
  - apply HList. induction l as [|x l IHl]; constructor; [apply IH | exact IHl].
  - apply HDict. induction d as [|[k x] d IHd]; constructor; [apply IH | exact IHd].
Qed.

Lemma str_eqb_eq (a b : str) : str_eqb a b = true <-> a = b.
Proof.
  revert b. induction a as [|x a IH]; intros [|y b]; simpl; split;
    try congruence; try discriminate.
  - intros H. apply andb_true_iff in H. destruct H as [H1 H2].
    apply N.eqb_eq in H1. apply IH in H2. congruence.
  - intros H. injection H as -> ->. apply andb_true_iff. split.
    + apply N.eqb_refl.
    + now apply IH.
Qed.

Lemma str_eqb_refl (a : str) : str_eqb a a = true.
Proof. now apply str_eqb_eq. Qed.

Lemma str_eqb_neq (a b : str) : str_eqb a b = false <-> a <> b.
Proof.
  split.
  - intros H E. apply str_eqb_eq in E. congruence.
  - intros H. destruct (str_eqb a b) eqn:E; [|reflexivity].
    apply str_eqb_eq in E. contradiction.
Qed.

Lemma unicode_text_lstrip (s : str) :
  unicode_text s = true -> unicode_text (lstrip s) = true.
Proof.
  induction s as [|c s IH]; intros H; [reflexivity|].
  cbn [lstrip]. destruct (is_space c); [|exact H].
  cbn [unicode_text forallb] in H. apply andb_true_iff in H. now apply IH.
Qed.

Lemma unicode_text_rev (s : str) :
  unicode_text s = true -> unicode_text (rev s) = true.
Proof.
  unfold unicode_text. rewrite !forallb_forall. intros H c Hc.
  apply H. now apply in_rev.
Qed.

Lemma unicode_text_strip (s : str) :
  unicode_text s = true -> unicode_text (strip s) = true.
Proof.
  intros H. unfold strip, rstrip.
  apply unicode_text_rev, unicode_text_lstrip, unicode_text_rev, unicode_text_lstrip, H.
Qed.

Lemma unicode_text_firstn (n : nat) (s : str) :
  unicode_text s = true -> unicode_text (firstn n s) = true.
Proof.
  intros H. rewrite <- (firstn_skipn n s) in H. unfold unicode_text in *.
  rewrite forallb_app in H. apply andb_true_iff in H. apply H.
Qed.

Lemma unicode_text_app (a b : str) :
  unicode_text a = true -> unicode_text b = true -> unicode_text (a ++ b) = true.
Proof. unfold unicode_text. intros Ha Hb. now rewrite forallb_app, Ha, Hb. Qed.

Lemma unicode_text_upper (up : char -> str) (s : str) :
  (forall c, is_scalar c = true -> unicode_text (up c) = true) ->
  unicode_text s = true -> unicode_text (upper up s) = true.
Proof.
  intros Hup. induction s as [|c s IH]; intros H; [reflexivity|].
  cbn [unicode_text forallb] in H. apply andb_true_iff in H. destruct H as [Hc Hs].
  cbn [upper flat_map]. apply unicode_text_app; [|now apply IH].
  unfold upper_char. destruct (N.ltb_spec c 128) as [L|L]; [|now apply Hup].
  assert (S1 : forall x, (x < 128)%N -> unicode_text [x] = true).
  { intros x Hx. cbn. unfold is_scalar.
    destruct (N.ltb_spec x 55296); [reflexivity|lia]. }
  destruct (in_range 97 122 c); apply S1; lia.
Qed.

Lemma unicode_text_uint_chars (d : Decimal.uint) : unicode_text (uint_chars d) = true.
Proof. induction d; cbn; try exact IHd; reflexivity. Qed.

Lemma unicode_text_int_repr (z : Z) : unicode_text (int_repr z) = true.
Proof.
  unfold int_repr. destruct (Z.to_int z); [|cbn [unicode_text forallb]];
    rewrite ?andb_true_l; apply unicode_text_uint_chars.
Qed.

(* ================================================================= *)
(** ** Facts about the JSON codec *)

Module JsonFacts.
Import Json JsonText.

(** *** Strings *)

Lemma hex_value_digit (d : N) : (d < 16)%N -> hex_value (hex_digit d) = Some d.
Proof.
  intros H.
  assert (E : exists k, (k < 16)%nat /\ d = N.of_nat k).
  { exists (N.to_nat d). split; lia. }
  destruct E as (k & Hk & ->).
  do 16 (destruct k as [|k]; [reflexivity|]). lia.
Qed.

Lemma hex4_value_hex4 (n : N) :
  (n < 65536)%N ->
  hex4_value (hex_digit (n / 4096)) (hex_digit ((n / 256) mod 16))
             (hex_digit ((n / 16) mod 16)) (hex_digit (n mod 16)) = Some n.
Proof.
  intros H. unfold hex4_value.
  replace (n / 4096)%N with (n / 16 / 16 / 16)%N
    by (rewrite !N.Div0.div_div; reflexivity).
  replace (n / 256)%N with (n / 16 / 16)%N
    by (rewrite !N.Div0.div_div; reflexivity).
  pose proof (N.Div0.div_mod n 16) as E0.
  pose proof (N.Div0.div_mod (n / 16) 16) as E1.
  pose proof (N.Div0.div_mod (n / 16 / 16) 16) as E2.
  pose proof (N.mod_lt n 16 ltac:(discriminate)) as L0.
  pose proof (N.mod_lt (n / 16) 16 ltac:(discriminate)) as L1.
  pose proof (N.mod_lt (n / 16 / 16) 16 ltac:(discriminate)) as L2.
  pose proof (N.Div0.div_mod (n / 16 / 16 / 16) 16) as E3.
  clear E3.
  remember (n / 16)%N as q1 eqn:Q1.
  remember (q1 / 16)%N as q2 eqn:Q2.
  remember (q2 / 16)%N as q3 eqn:Q3.
  remember (n mod 16)%N as m0 eqn:M0.
  remember (q1 mod 16)%N as m1 eqn:M1.
  remember (q2 mod 16)%N as m2 eqn:M2.
  clear Q1 Q2 Q3 M0 M1 M2.
  rewrite !hex_value_digit by lia.
  f_equal. lia.
Qed.

Lemma scanstring_quote (r : str) : scanstring (QUOTE :: r) = Some ([], r).
Proof. reflexivity. Qed.

Lemma scanstring_plain (c : char) (r : str) :
  in_range 32 126 c = true -> c <> 34%N -> c <> 92%N ->
  scanstring (c :: r) = push c (scanstring r).
Proof.
  unfold in_range. intros H H1 H2.
  apply andb_true_iff in H. destruct H as [Ha Hb].
  apply N.leb_le in Ha. apply N.leb_le in Hb.
  cbn [scanstring]. unfold QUOTE, BACKSLASH.
  destruct (N.eqb_spec c 34); [contradiction|].
  destruct (N.eqb_spec c 92); [contradiction|].
  destruct (N.ltb_spec c 32); [lia|]. reflexivity.
Qed.

Lemma scanstring_short (e c : char) (r : str) :
  unescape e = Some c -> e <> LOWER_U ->
  scanstring (BACKSLASH :: e :: r) = push c (scanstring r).
Proof.
  intros H Hu. cbn [scanstring]. cbn [N.eqb BACKSLASH QUOTE Pos.eqb].
  destruct (N.eqb_spec e LOWER_U); [contradiction|].
  rewrite H. reflexivity.
Qed.

Lemma scanstring_u (a b c d uni : char) (r : str) :
  hex4_value a b c d = Some uni -> is_high_surrogate uni = false ->
  scanstring (BACKSLASH :: LOWER_U :: a :: b :: c :: d :: r) = push uni (scanstring r).
Proof.
  intros H Hs.
  change (scanstring (BACKSLASH :: LOWER_U :: a :: b :: c :: d :: r))
    with (match hex4_value a b c d with
          | None => None
          | Some uni =>
              match r with
              | bs :: u :: a2 :: b2 :: c2 :: d2 :: r4 =>
                  if is_high_surrogate uni && (bs =? BACKSLASH)%N && (u =? LOWER_U)%N
                  then
                    match hex4_value a2 b2 c2 d2 with
                    | None => None
                    | Some uni2 =>
                        if is_low_surrogate uni2
                        then push (join_surrogates uni uni2) (scanstring r4)
                        else push uni (scanstring r)
                    end
                  else push uni (scanstring r)
              | _ => push uni (scanstring r)
              end
          end).
  rewrite H, Hs. cbn [andb].
  destruct r as [|? [|? [|? [|? [|? [|? r4]]]]]]; reflexivity.
Qed.

Lemma scanstring_pair (a b c d a2 b2 c2 d2 hi lo : char) (r : str) :
  hex4_value a b c d = Some hi -> is_high_surrogate hi = true ->
  hex4_value a2 b2 c2 d2 = Some lo -> is_low_surrogate lo = true ->
  scanstring (BACKSLASH :: LOWER_U :: a :: b :: c :: d ::
              BACKSLASH :: LOWER_U :: a2 :: b2 :: c2 :: d2 :: r)
  = push (join_surrogates hi lo) (scanstring r).
Proof.
  intros H Hs H2 Hl.
  change (scanstring (BACKSLASH :: LOWER_U :: a :: b :: c :: d ::
              BACKSLASH :: LOWER_U :: a2 :: b2 :: c2 :: d2 :: r))
    with (match hex4_value a b c d with
          | None => None
          | Some uni =>
                  if is_high_surrogate uni && (BACKSLASH =? BACKSLASH)%N && (LOWER_U =? LOWER_U)%N
                  then
                    match hex4_value a2 b2 c2 d2 with
                    | None => None
                    | Some uni2 =>
                        if is_low_surrogate uni2
                        then push (join_surrogates uni uni2) (scanstring r)
                        else push uni (scanstring (BACKSLASH :: LOWER_U :: a2 :: b2 :: c2 :: d2 :: r))
                    end
                  else push uni (scanstring (BACKSLASH :: LOWER_U :: a2 :: b2 :: c2 :: d2 :: r))
          end).
  rewrite H, Hs, H2, Hl. reflexivity.
Qed.

Lemma lor_pow2_add (b a k : N) :
  (a < 2 ^ k)%N -> N.lor (b * 2 ^ k) a = (b * 2 ^ k + a)%N.
Proof.
  intros H.
  assert (D : N.land (b * 2 ^ k) a = 0%N).
  { apply N.bits_inj. intros i. rewrite N.land_spec, N.bits_0.
    destruct (N.lt_ge_cases i k) as [L | L].
    - rewrite N.mul_pow2_bits_low by exact L. reflexivity.
    - rewrite <- (N.mod_small a (2 ^ k)) by exact H.
      rewrite N.mod_pow2_bits_high by exact L. apply andb_false_r. }
  rewrite <- N.lxor_lor by exact D.
  symmetry. apply N.add_nocarry_lxor. exact D.
Qed.

Lemma high_of_eq (c : char) :
  (65536 <= c)%N -> (c <= 1114111)%N -> high_of c = (55296 + (c - 65536) / 1024)%N.
Proof.
  intros H1 H2. unfold high_of.
  change 1023%N with (N.ones 10). rewrite N.land_ones, N.shiftr_div_pow2.
  change (2 ^ 10)%N with 1024%N.
  assert (L : ((c - 65536) / 1024 < 1024)%N).
  { apply N.Div0.div_lt_upper_bound. lia. }
  rewrite N.mod_small by exact L.
  change 55296%N with (54 * 2 ^ 10)%N.
  apply lor_pow2_add. exact L.
Qed.

Lemma low_of_eq (c : char) : low_of c = (56320 + (c - 65536) mod 1024)%N.
Proof.
  unfold low_of. change 1023%N with (N.ones 10). rewrite N.land_ones.
  change (2 ^ 10)%N with 1024%N.
  change 56320%N with (55 * 2 ^ 10)%N.
  apply lor_pow2_add. apply N.mod_lt. discriminate.
Qed.

Lemma join_high_low (c : char) :
  (65536 <= c)%N -> (c <= 1114111)%N -> join_surrogates (high_of c) (low_of c) = c.
Proof.
  intros H1 H2. unfold join_surrogates.
  rewrite high_of_eq, low_of_eq by assumption.
  rewrite (N.add_comm 55296), (N.add_comm 56320), !N.add_sub.
  rewrite N.shiftl_mul_pow2. rewrite lor_pow2_add by (apply N.mod_lt; discriminate).
  change (2 ^ 10)%N with 1024%N.
  pose proof (N.Div0.div_mod (c - 65536) 1024) as E.
  remember ((c - 65536) / 1024)%N as q eqn:Q.
  remember ((c - 65536) mod 1024)%N as m eqn:M.
  clear Q M. lia.
Qed.

Lemma scanstring_escape_char (c : char) (r : str) :
  is_scalar c = true -> scanstring (escape_char c ++ r) = push c (scanstring r).
Proof.
  intros Hc. unfold escape_char.
  destruct (N.eqb_spec c 92) as [->|N1]; [reflexivity|].
  destruct (N.eqb_spec c 34) as [->|N2]; [reflexivity|].
  destruct (N.eqb_spec c 8) as [->|N3]; [reflexivity|].
  destruct (N.eqb_spec c 12) as [->|N4]; [reflexivity|].
  destruct (N.eqb_spec c 10) as [->|N5]; [reflexivity|].
  destruct (N.eqb_spec c 13) as [->|N6]; [reflexivity|].
  destruct (N.eqb_spec c 9) as [->|N7]; [reflexivity|].
  destruct (in_range 32 126 c) eqn:R.
  { apply scanstring_plain; assumption. }
  unfold is_scalar, in_range in Hc.
  destruct (N.ltb_spec c 65536) as [L | L].
  - apply scanstring_u.
    + apply hex4_value_hex4. exact L.
    + unfold is_high_surrogate, in_range.
      destruct (N.ltb_spec c 55296) as [L1|L1].
      * apply andb_false_iff. left. apply N.leb_gt. exact L1.
      * cbn [orb] in Hc. apply andb_true_iff in Hc. destruct Hc as [Hc _].
        apply N.leb_le in Hc. apply andb_false_iff. right. apply N.leb_gt. lia.
  - assert (U : (c <= 1114111)%N).
    { destruct (N.ltb_spec c 55296); [lia|]. cbn [orb] in Hc.
      apply andb_true_iff in Hc. destruct Hc as [_ Hc]. apply N.leb_le in Hc. exact Hc. }
    fold (high_of c). fold (low_of c).
    pose proof (high_of_eq L U) as EH. pose proof (low_of_eq c) as EL.
    assert (B1 : ((c - 65536) / 1024 < 1024)%N).
    { apply N.Div0.div_lt_upper_bound. lia. }
    pose proof (N.mod_lt (c - 65536) 1024 ltac:(discriminate)) as B2.
    remember ((c - 65536) / 1024)%N as q eqn:Q.
    remember ((c - 65536) mod 1024)%N as m eqn:M.
    clear Q M.
    unfold hex4. cbn [app].
    rewrite (@scanstring_pair _ _ _ _ _ _ _ _ (high_of c) (low_of c)).
    + rewrite join_high_low by assumption. reflexivity.
    + apply hex4_value_hex4. lia.
    + unfold is_high_surrogate, in_range. apply andb_true_iff.
      split; apply N.leb_le; lia.
    + apply hex4_value_hex4. lia.
    + unfold is_low_surrogate, in_range. apply andb_true_iff.
      split; apply N.leb_le; lia.
Qed.

Lemma scanstring_encode (s r : str) :
  unicode_text s = true ->
  scanstring (flat_map escape_char s ++ QUOTE :: r) = Some (s, r).
Proof.
  induction s as [|c s IH]; intros H.
  - reflexivity.
  - cbn [unicode_text forallb] in H. apply andb_true_iff in H. destruct H as [Hc Hs].
    cbn [flat_map]. rewrite <- app_assoc.
    rewrite scanstring_escape_char by exact Hc.
    rewrite IH by exact Hs. reflexivity.
Qed.

Lemma scanstring_basestring (s r : str) :
  unicode_text s = true ->
  scanstring (tl (encode_basestring_ascii s) ++ r) = Some (s, r).
Proof.
  intros H. unfold encode_basestring_ascii. cbn [tl].
  rewrite <- app_assoc. apply scanstring_encode. exact H.
Qed.

(** *** Numbers *)

Lemma delimited_cases (r : str) :
  delimited r = true ->
  r = [] \/ exists c r', r = c :: r' /\
    (c = 44 \/ c = 93 \/ c = 125 \/ c = 32 \/ c = 9 \/ c = 10 \/ c = 13)%N.
Proof.
  destruct r as [|c r']; [now left|]. intros H. right. exists c, r'. split; [reflexivity|].
  unfold delimited, is_ws, COMMA, RBRACKET, RBRACE in H.
  repeat (apply orb_true_iff in H; destruct H as [H|H]);
    apply N.eqb_eq in H; subst; tauto.
Qed.

Lemma uint_of_chars_chars (d : Decimal.uint) : uint_of_chars (uint_chars d) = d.
Proof. induction d; cbn; rewrite ?IHd; reflexivity. Qed.

Lemma span_digits_uint (d : Decimal.uint) (r : str) :
  delimited r = true -> span_digits (uint_chars d ++ r) = (uint_chars d, r).
Proof.
  intros H. induction d; cbn [uint_chars app];
    try (cbn [span_digits]; change (is_digit (digit_char _)) with true;
         cbv iota; rewrite IHd; reflexivity).
  destruct (delimited_cases r H) as [-> | (c & r' & -> & Hc)]; [reflexivity|].
  repeat (destruct Hc as [-> | Hc]); try subst c; reflexivity.
Qed.

Lemma scan_frac_delimited (r : str) : delimited r = true -> scan_frac r = ([], r).
Proof.
  intros H. destruct (delimited_cases r H) as [-> | (c & r' & -> & Hc)]; [reflexivity|].
  repeat (destruct Hc as [-> | Hc]); try subst c; destruct r'; reflexivity.
Qed.

Lemma scan_exp_delimited (r : str) : delimited r = true -> scan_exp r = ([], r).
Proof.
  intros H. destruct (delimited_cases r H) as [-> | (c & r' & -> & Hc)]; [reflexivity|].
  repeat (destruct Hc as [-> | Hc]); try subst c; reflexivity.
Qed.

Lemma canonical_to_uint (p : positive) : canonical (Pos.to_uint p).
Proof.
  right. split; [apply DecimalPos.Unsigned.to_uint_nonnil|].
  intros d' E.
  pose proof (DecimalPos.Unsigned.to_of (Pos.to_uint p)) as T.
  rewrite DecimalPos.Unsigned.of_to in T. cbn [N.to_uint] in T.
  pose proof (DecimalPos.Unsigned.to_uint_nonzero p) as NZ.
  unfold Decimal.unorm in T.
  destruct (Decimal.nzhead (Pos.to_uint p)) eqn:E2;
    try (rewrite T in E; rewrite <- E2 in E;
         exact (DecimalFacts.nzhead_nonzero _ _ E)).
  exact (NZ T).
Qed.

Lemma scan_integer_uint (d : Decimal.uint) (r : str) :
  canonical d -> delimited r = true ->
  scan_integer (uint_chars d ++ r) = Some (uint_chars d, r).
Proof.
  intros [-> | [Hn Hz]] H.
  - reflexivity.
  - destruct d; try congruence; try (exfalso; eapply Hz; reflexivity);
      cbn [uint_chars app]; unfold scan_integer;
      change (is_digit (digit_char _)) with true; cbv beta iota;
      match goal with |- context [(?a =? 48)%N] => change (a =? 48)%N with false end;
      cbv iota; rewrite span_digits_uint by exact H; reflexivity.
Qed.

Lemma match_number_tail (negative : bool) (d : Decimal.uint) (r : str) :
  canonical d -> delimited r = true ->
  match scan_integer (uint_chars d ++ r) with
  | None => None
  | Some (digits, r) =>
      let (frac, r1) := scan_frac r in
      let (exp, r2) := scan_exp r1 in
      match frac, exp with
      | [], [] => Some (VInt (int_of_text negative digits), r2)
      | _, _ =>
          Some (VFloat ((if negative then [MINUS] else []) ++ digits ++ frac ++ exp), r2)
      end
  end = Some (VInt (Z.of_int (if negative then Decimal.Neg d else Decimal.Pos d)), r).
Proof.
  intros C H. rewrite scan_integer_uint by assumption.
  rewrite scan_frac_delimited, scan_exp_delimited by exact H.
  unfold int_of_text. rewrite uint_of_chars_chars. reflexivity.
Qed.

Lemma uint_chars_head (d : Decimal.uint) :
  d <> Decimal.Nil -> exists c t, uint_chars d = c :: t /\ is_digit c = true.
Proof.
  destruct d; intros H; try congruence; eexists _, _; split; reflexivity.
Qed.

Lemma match_number_int (z : Z) (r : str) :
  delimited r = true -> match_number (int_repr z ++ r) = Some (VInt z, r).
Proof.
  intros H. rewrite <- (DecimalZ.of_to z) at 2.
  unfold int_repr. destruct z as [|p|p]; cbn [Z.to_int].
  - unfold match_number.
    change (scan_sign (uint_chars (Decimal.D0 Decimal.Nil) ++ r))
      with (false, uint_chars (Decimal.D0 Decimal.Nil) ++ r).
    cbv beta iota.
    apply (match_number_tail false); [now left | exact H].
  - pose proof (canonical_to_uint p) as C.
    destruct (uint_chars_head (DecimalPos.Unsigned.to_uint_nonnil p)) as (c & t & E & Hd).
    unfold match_number.
    assert (S : scan_sign (uint_chars (Pos.to_uint p) ++ r)
                = (false, uint_chars (Pos.to_uint p) ++ r)).
    { rewrite E. cbn [app scan_sign]. unfold is_digit, in_range in Hd.
      apply andb_true_iff in Hd. destruct Hd as [Ha Hb].
      apply N.leb_le in Ha. unfold MINUS.
      destruct (N.eqb_spec c 45); [lia|reflexivity]. }
    rewrite S. cbv beta iota. apply (match_number_tail false); assumption.
  - pose proof (canonical_to_uint p) as C.
    unfold match_number. cbn [app scan_sign].
    change (MINUS =? MINUS)%N with true. cbv beta iota.
    apply (match_number_tail true); assumption.
Qed.

(** *** Whitespace and separators *)

Lemma join_cons (sep p : str) (ps : list str) :
  join sep (p :: ps) = p ++ flat_map (fun q => sep ++ q) ps.
Proof.
  revert p. induction ps as [|q ps IH]; intros p.
  - cbn. now rewrite app_nil_r.
  - change (join sep (p :: q :: ps)) with (p ++ sep ++ join sep (q :: ps)).
    rewrite IH. cbn [flat_map]. now rewrite <- app_assoc.
Qed.

Lemma skip_ws_spaces (n : nat) (r : str) : skip_ws (repeat SPACE n ++ r) = skip_ws r.
Proof. induction n as [|n IH]; [reflexivity|exact IH]. Qed.

Lemma skip_ws_starts_value (s : str) : starts_value s = true -> skip_ws s = s.
Proof.
  destruct s as [|c s]; [discriminate|]. cbn [starts_value skip_ws].
  destruct (is_ws c); [discriminate|reflexivity].
Qed.

Lemma int_repr_head (z : Z) :
  exists c t, int_repr z = c :: t /\ (is_digit c = true \/ c = MINUS).
Proof.
  unfold int_repr. destruct z as [|p|p]; cbn [Z.to_int].
  - eexists _, _. split; [reflexivity|now left].
  - destruct (uint_chars_head (DecimalPos.Unsigned.to_uint_nonnil p)) as (c & t & E & Hd).
    exists c, t. split; [exact E|now left].
  - eexists _, _. split; [reflexivity|now right].
Qed.

Lemma numeric_head_cases (c : char) :
  is_digit c = true \/ c = MINUS ->
  (c = 45 \/ c = 48 \/ c = 49 \/ c = 50 \/ c = 51 \/ c = 52 \/ c = 53 \/ c = 54
   \/ c = 55 \/ c = 56 \/ c = 57)%N.
Proof.
  intros [H | ->]; [|now left].
  unfold is_digit, in_range in H. apply andb_true_iff in H. destruct H as [Ha Hb].
  apply N.leb_le in Ha. apply N.leb_le in Hb. lia.
Qed.

Lemma scan_once_numeric (f : nat) (c : char) (t : str) (res : pyval * str) :
  is_digit c = true \/ c = MINUS ->
  match_number (c :: t) = Some res ->
  scan_once (S f) (c :: t) = Some res.
Proof.
  intros Hc Hm. apply numeric_head_cases in Hc.
  repeat (destruct Hc as [Hc | Hc]); subst c;
    (cbn [scan_once]; cbn [N.eqb Pos.eqb QUOTE LBRACE LBRACKET];
     unfold scan_atom; unfold constant at 1 2 3;
     cbn [lit list_ascii_of_string map strip_prefix];
     rewrite Hm; reflexivity).
Qed.

(** *** Values *)

Ltac lengths :=
  repeat first [ rewrite length_app in * | progress cbn [length] in * ]; lia.

Ltac reassoc :=
  repeat first [ rewrite <- app_assoc in * | progress cbn [app] in * ].

Section Codec.
Variable float_repr : str -> str.
Variable indent : option nat.

Abbreviation enc := (iterencode float_repr indent).
Abbreviation nl := (newline_indent indent).
Abbreviation sep := (item_separator indent).
Abbreviation decodes := (JsonText.decodes float_repr indent).
Abbreviation items_text := (JsonText.items_text float_repr indent).
Abbreviation pair_text := (JsonText.pair_text float_repr indent).
Abbreviation pairs_text := (JsonText.pairs_text float_repr indent).

Lemma skip_ws_nl (level : nat) (r : str) : skip_ws (nl level ++ r) = skip_ws r.
Proof.
  unfold newline_indent. destruct indent as [n|]; [|reflexivity].
  cbn [app skip_ws is_ws]. change (is_ws NEWLINE) with true. cbv iota.
  apply skip_ws_spaces.
Qed.

Lemma sep_shape (level : nat) :
  exists w, sep level = COMMA :: w /\ forall r, skip_ws (w ++ r) = skip_ws r.
Proof.
  unfold item_separator, newline_indent. destruct indent as [n|].
  - exists (NEWLINE :: repeat SPACE (n * level)). split; [reflexivity|].
    intros r. apply (skip_ws_spaces (n * level) r).
  - exists [SPACE]. split; [reflexivity|]. intros r. reflexivity.
Qed.

Lemma delimited_nl_close (level : nat) (c : char) (r : str) :
  c = RBRACKET \/ c = RBRACE -> delimited (nl level ++ c :: r) = true.
Proof.
  intros H. unfold newline_indent. destruct indent as [n|].
  - reflexivity.
  - destruct H as [-> | ->]; reflexivity.
Qed.

Lemma delimited_sep (level : nat) (r : str) : delimited (sep level ++ r) = true.
Proof.
  destruct (sep_shape level) as (w & -> & _). reflexivity.
Qed.

Lemma encode_starts_value (v : pyval) (level : nat) (r : str) :
  storable v = true -> starts_value (enc level v ++ r) = true.
Proof.
  destruct v as [ | [|] | z | f | s | [|x l] | [|[k x] d] ]; intros H;
    try reflexivity; try discriminate.
  cbn [iterencode].
  destruct (int_repr_head z) as (c & t & -> & Hc).
  apply numeric_head_cases in Hc.
  repeat (destruct Hc as [Hc | Hc]); subst c; reflexivity.
Qed.

Lemma skip_ws_encode (v : pyval) (level : nat) (r : str) :
  storable v = true -> skip_ws (enc level v ++ r) = enc level v ++ r.
Proof.
  intros H. apply skip_ws_starts_value. now apply encode_starts_value.
Qed.

(** One step of [scan_once] on an opening bracket or brace. *)
Lemma scan_once_array (f : nat) (R : str) :
  starts_value (skip_ws R) = true ->
  scan_once (S f) (LBRACKET :: R)
  = match scan_once f (skip_ws R) with
    | Some (v, r2) =>
        match array_tail f r2 with
        | Some (vs, r3) => Some (VList (v :: vs), r3)
        | None => None
        end
    | None => None
    end.
Proof.
  intros H. cbn [scan_once]. cbn [N.eqb Pos.eqb QUOTE LBRACE LBRACKET].
  destruct (skip_ws R) as [|c1 r1]; [discriminate|].
  cbn [starts_value] in H.
  destruct (c1 =? RBRACKET)%N; [|reflexivity].
  rewrite andb_false_r in H. discriminate.
Qed.

Lemma scan_once_object (f : nat) (R r1 : str) :
  skip_ws R = QUOTE :: r1 ->
  scan_once (S f) (LBRACE :: R)
  = match object_pairs f r1 with
    | Some (pairs, r2) => Some (VDict (dict_of_pairs pairs), r2)
    | None => None
    end.
Proof.
  intros H. cbn [scan_once]. cbn [N.eqb Pos.eqb QUOTE LBRACE LBRACKET].
  rewrite H. reflexivity.
Qed.

Lemma items_text_cons (level : nat) (x : pyval) (xs : list pyval) :
  items_text level (x :: xs)
  = sep (S level) ++ enc (S level) x ++ items_text level xs.
Proof. unfold items_text. cbn [map flat_map]. now rewrite <- app_assoc. Qed.

Lemma delimited_items (level : nat) (xs : list pyval) (c : char) (r : str) :
  c = RBRACKET \/ c = RBRACE ->
  delimited (items_text level xs ++ nl level ++ c :: r) = true.
Proof.
  intros H. destruct xs as [|x xs].
  - apply delimited_nl_close. exact H.
  - rewrite items_text_cons. rewrite <- !app_assoc. apply delimited_sep.
Qed.

Lemma array_tail_encode (level : nat) (xs : list pyval) (r : str) :
  Forall decodes xs -> forallb storable xs = true ->
  forall f, length (items_text level xs ++ nl level ++ RBRACKET :: r) < f ->
  array_tail f (items_text level xs ++ nl level ++ RBRACKET :: r) = Some (xs, r).
Proof.
  induction xs as [|y ys IH]; intros HF HS f Hlen.
  - destruct f as [|f]; [inversion Hlen|].
    cbn [items_text map flat_map app array_tail].
    rewrite skip_ws_nl. reflexivity.
  - inversion HF as [|? ? Hy HF']; subst.
    cbn [forallb] in HS. apply andb_true_iff in HS. destruct HS as [Sy Sys].
    destruct f as [|f]; [inversion Hlen|].
    rewrite items_text_cons in *. rewrite <- !app_assoc in *.
    destruct (sep_shape (S level)) as (w & Ew & Hw). rewrite Ew in *.
    cbn [app array_tail skip_ws]. change (is_ws COMMA) with false. cbv iota.
    change (COMMA =? RBRACKET)%N with false. change (COMMA =? COMMA)%N with true.
    cbv iota. rewrite Hw. rewrite skip_ws_encode by exact Sy.
    rewrite (Hy Sy).
    + rewrite IH; [reflexivity | exact HF' | exact Sys | lengths].
    + apply (delimited_items level ys). now left.
    + lengths.
Qed.

Lemma pairs_text_cons (level : nat) (k : str) (x : pyval) (d : list (str * pyval)) :
  pairs_text level ((k, x) :: d)
  = sep (S level) ++ QUOTE :: tl (encode_basestring_ascii k) ++ key_separator
      ++ enc (S level) x ++ pairs_text level d.
Proof.
  unfold pairs_text. cbn [map flat_map pair_text].
  rewrite <- !app_assoc. reflexivity.
Qed.

Lemma delimited_pairs (level : nat) (d : list (str * pyval)) (r : str) :
  delimited (pairs_text level d ++ nl level ++ RBRACE :: r) = true.
Proof.
  destruct d as [|[k x] d].
  - apply delimited_nl_close. now right.
  - rewrite pairs_text_cons. rewrite <- !app_assoc. apply delimited_sep.
Qed.

Lemma object_pairs_encode (level : nat) (d : list (str * pyval)) (r : str) :
  Forall (fun kv => decodes (snd kv)) d -> forallb storable_item d = true ->
  forall k x f, decodes x -> unicode_text k = true -> storable x = true ->
    length (tl (encode_basestring_ascii k) ++ key_separator ++ enc (S level) x
              ++ pairs_text level d ++ nl level ++ RBRACE :: r) < f ->
    object_pairs f (tl (encode_basestring_ascii k) ++ key_separator
                      ++ enc (S level) x ++ pairs_text level d ++ nl level ++ RBRACE :: r)
    = Some ((k, x) :: d, r).
Proof.
  induction d as [|[k' x'] d IH]; intros HF HS k x f Hx Hk Sx Hlen.
  - destruct f as [|f]; [inversion Hlen|].
    cbn [object_pairs]. rewrite scanstring_basestring by exact Hk.
    cbn [key_separator app skip_ws]. change (is_ws COLON) with false. cbv iota.
    change (COLON =? COLON)%N with true. cbv iota.
    cbn [skip_ws]. change (is_ws SPACE) with true. cbv iota.
    rewrite skip_ws_encode by exact Sx.
    rewrite (Hx Sx).
    + cbn [pairs_text map flat_map app]. rewrite skip_ws_nl. reflexivity.
    + apply delimited_pairs.
    + unfold key_separator in Hlen. lengths.
  - inversion HF as [|? ? Hx' HF']; subst. cbn [snd] in Hx'.
    cbn [forallb storable_item] in HS. apply andb_true_iff in HS.
    destruct HS as [HS1 HS]. apply andb_true_iff in HS1. destruct HS1 as [Hk' Sx'].
    destruct f as [|f]; [inversion Hlen|].
    cbn [object_pairs]. rewrite scanstring_basestring by exact Hk.
    cbn [key_separator app skip_ws]. change (is_ws COLON) with false. cbv iota.
    change (COLON =? COLON)%N with true. cbv iota.
    cbn [skip_ws]. change (is_ws SPACE) with true. cbv iota.
    rewrite skip_ws_encode by exact Sx.
    rewrite pairs_text_cons in *. rewrite <- !app_assoc in *.
    destruct (sep_shape (S level)) as (w & Ew & Hw). rewrite Ew in *.
    rewrite (Hx Sx).
    + cbn [app skip_ws]. change (is_ws COMMA) with false. cbv iota.
      change (COMMA =? RBRACE)%N with false. change (COMMA =? COMMA)%N with true.
      cbv iota. rewrite Hw. cbn [skip_ws]. change (is_ws QUOTE) with false. cbv iota.
      change (QUOTE =? QUOTE)%N with true. cbv iota.
      rewrite <- !app_assoc.
      rewrite (IH HF' HS k' x' f Hx' Hk' Sx'); [reflexivity|].
      unfold key_separator in *. lengths.
    + reflexivity.
    + unfold key_separator in *. lengths.
Qed.

Lemma encode_list_cons (level : nat) (x : pyval) (xs : list pyval) :
  enc level (VList (x :: xs))
  = LBRACKET :: nl (S level) ++ enc (S level) x ++ items_text level xs
      ++ nl level ++ [RBRACKET].
Proof.
  change (enc level (VList (x :: xs)))
    with (LBRACKET :: nl (S level)
            ++ join (sep (S level)) (map (enc (S level)) (x :: xs))
            ++ nl level ++ [RBRACKET]).
  cbn [map]. rewrite join_cons. rewrite <- !app_assoc. reflexivity.
Qed.

Lemma encode_dict_cons (level : nat) (k : str) (x : pyval) (d : list (str * pyval)) :
  enc level (VDict ((k, x) :: d))
  = LBRACE :: nl (S level) ++ QUOTE :: tl (encode_basestring_ascii k) ++ key_separator
      ++ enc (S level) x ++ pairs_text level d ++ nl level ++ [RBRACE].
Proof.
  change (enc level (VDict ((k, x) :: d)))
    with (LBRACE :: nl (S level)
            ++ join (sep (S level)) (map (pair_text level) ((k, x) :: d))
            ++ nl level ++ [RBRACE]).
  cbn [map]. rewrite join_cons. cbn [pair_text].
  change (encode_basestring_ascii k) with (QUOTE :: tl (encode_basestring_ascii k)) at 1.
  rewrite <- ?app_assoc. cbn [app]. rewrite <- ?app_assoc. reflexivity.
Qed.

End Codec.

(** [dict(pairs)] of pairs with distinct keys. *)
Lemma dict_set_fresh (d : list (str * pyval)) (k : str) (v : pyval) :
  existsb (fun k' => str_eqb k' k) (map fst d) = false ->
  dict_set d k v = d ++ [(k, v)].
Proof.
  induction d as [|[k' v'] d IH]; intros H.
  - reflexivity.
  - cbn [map fst existsb] in H. apply orb_false_iff in H. destruct H as [H1 H2].
    cbn [dict_set app]. rewrite H1. now rewrite IH.
Qed.

Lemma dict_of_pairs_distinct (d : list (str * pyval)) :
  distinct (map fst d) = true -> dict_of_pairs d = d.
Proof.
  unfold dict_of_pairs.
  assert (G : forall acc,
             distinct (map fst d) = true ->
             (forall k, In k (map fst d) ->
                existsb (fun k' => str_eqb k' k) (map fst acc) = false) ->
             fold_left (fun a kv => dict_set a (fst kv) (snd kv)) d acc = acc ++ d).
  { induction d as [|[k v] d IH]; intros acc HD HA.
    - cbn. now rewrite app_nil_r.
    - cbn [map fst distinct] in HD. apply andb_true_iff in HD. destruct HD as [HD1 HD2].
      apply negb_true_iff in HD1.
      cbn [fold_left fst snd]. rewrite dict_set_fresh by (apply HA; now left).
      rewrite IH.
      + rewrite <- app_assoc. reflexivity.
      + exact HD2.
      + intros k0 Hin. rewrite map_app, existsb_app. cbn [map fst existsb].
        rewrite (HA k0) by (now right). cbn [orb]. rewrite orb_false_r.
        apply str_eqb_neq. intros ->.
        rewrite <- not_true_iff_false in HD1. apply HD1.
        apply existsb_exists. exists k0. split; [exact Hin|apply str_eqb_refl]. }
  intros H. apply (G [] H). intros k _. reflexivity.
Qed.

Section RoundTrip.
Variable float_repr : str -> str.
Variable indent : option nat.

Lemma storable_dict (d : list (str * pyval)) :
  storable (VDict d) = true ->
  distinct (map fst d) = true /\ forallb storable_item d = true.
Proof. intros H. cbn [storable] in H. apply andb_true_iff in H. exact H. Qed.

(** Decoding the encoding of a storable value gives the value back. *)
Lemma scan_once_encode (v : pyval) : decodes float_repr indent v.
Proof.
  induction v as [ | b | z | fl | s | l IHl | d IHd ] using pyval_ind;
    intros Hs level r f Hd Hlen.
  - destruct f as [|f]; [inversion Hlen|]. reflexivity.
  - destruct f as [|f]; [inversion Hlen|]. destruct b; reflexivity.
  - destruct f as [|f]; [inversion Hlen|]. cbn [iterencode].
    destruct (int_repr_head z) as (c & t & E & Hc).
    pose proof (match_number_int z r Hd) as Hm. rewrite E in *.
    apply scan_once_numeric; assumption.
  - discriminate.
  - destruct f as [|f]; [inversion Hlen|]. cbn [iterencode storable] in *.
    unfold encode_basestring_ascii. cbn [app scan_once].
    change (QUOTE =? QUOTE)%N with true. cbv iota.
    rewrite <- app_assoc. cbn [app]. rewrite scanstring_encode by exact Hs.
    reflexivity.
  - destruct l as [|x xs].
    + destruct f as [|f]; [inversion Hlen|]. reflexivity.
    + inversion IHl as [|? ? Hx Hxs]; subst.
      cbn [storable forallb] in Hs. apply andb_true_iff in Hs. destruct Hs as [Sx Sxs].
      rewrite encode_list_cons in *. reassoc.
      destruct f as [|f]; [inversion Hlen|].
      rewrite scan_once_array;
        rewrite skip_ws_nl, skip_ws_encode by exact Sx;
        [|now apply encode_starts_value].
      rewrite (Hx Sx).
      * rewrite array_tail_encode; [reflexivity | exact Hxs | exact Sxs | lengths].
      * apply delimited_items. now left.
      * lengths.
  - destruct d as [|[k x] d].
    + destruct f as [|f]; [inversion Hlen|]. reflexivity.
    + inversion IHd as [|? ? Hx Hxs]; subst. cbn [snd] in Hx.
      destruct (storable_dict _ Hs) as [Hdist Hitems].
      cbn [forallb storable_item] in Hitems. apply andb_true_iff in Hitems.
      destruct Hitems as [H1 Sd]. apply andb_true_iff in H1. destruct H1 as [Hk Sx].
      rewrite encode_dict_cons in *. reassoc.
      destruct f as [|f]; [inversion Hlen|].
      rewrite (@scan_once_object f _ (tl (encode_basestring_ascii k) ++ key_separator
                 ++ iterencode float_repr indent (S level) x
                 ++ pairs_text float_repr indent level d
                 ++ newline_indent indent level ++ RBRACE :: r)).
      * rewrite object_pairs_encode; try assumption.
        -- rewrite dict_of_pairs_distinct by exact Hdist. reflexivity.
        -- unfold key_separator in *. lengths.
      * rewrite skip_ws_nl. reflexivity.
Qed.

(** [json.loads(json.dumps(v, indent=...))] is [v]. *)
Lemma loads_dumps (v : pyval) :
  storable v = true -> loads (dumps float_repr indent v) = Some v.
Proof.
  intros Hs. unfold loads, dumps.
  pose proof (@encode_starts_value float_repr indent v 0 [] Hs) as Hv.
  rewrite app_nil_r in Hv.
  pose proof (@scan_once_encode v Hs 0 [] (S (length (iterencode float_repr indent 0 v)))
                eq_refl) as Hscan.
  rewrite app_nil_r in Hscan.
  destruct (iterencode float_repr indent 0 v) as [|c t] eqn:E; [discriminate|].
  assert (Hb : (c =? BOM)%N = false).
  { cbn [starts_value] in Hv. destruct v as [ | [|] | z | fl | s | [|x l] | [|[k x] d] ];
      try discriminate Hs;
      try (cbn in E; injection E as <- _; reflexivity).
    cbn [iterencode] in E. destruct (int_repr_head z) as (c' & t' & E' & Hc).
    rewrite E' in E. injection E as <- _.
    apply numeric_head_cases in Hc.
    repeat (destruct Hc as [Hc | Hc]); subst c'; reflexivity. }
  rewrite Hb. rewrite skip_ws_starts_value by exact Hv.
  rewrite Hscan by lia. reflexivity.
Qed.
End RoundTrip.

(** *** The fuel of [scan_once] is enough *)

Lemma skip_ws_length (s : str) : length (skip_ws s) <= length s.
Proof.
  induction s as [|c s IH]; [apply le_n|]. cbn [skip_ws].
  destruct (is_ws c); cbn [length]; lia.
Qed.

Lemma push_some (c : char) (x : option (str * str)) (t r : str) :
  push c x = Some (t, r) -> exists t', x = Some (t', r).
Proof.
  destruct x as [[t' r']|]; [|discriminate]. cbn. intros H. injection H as _ <-.
  now exists t'.
Qed.

Lemma scanstring_length (s t r : str) :
  scanstring s = Some (t, r) -> length r < length s.
Proof.
  remember (length s) as n eqn:Hn. revert s t r Hn.
  induction n as [n IH] using lt_wf_ind. intros s t r Hn H. subst n.
  assert (Rec : forall c s' t0, length s' < length s ->
                  push c (scanstring s') = Some (t0, r) -> length r < length s).
  { intros c s' t0 Hlt Hp. destruct (push_some _ _ Hp) as (t' & E).
    pose proof (IH _ Hlt s' t' r eq_refl E). lia. }
  destruct s as [|c s1]; [discriminate|]. cbn [scanstring] in H.
  destruct (c =? QUOTE)%N.
  { injection H as _ <-. cbn. lia. }
  destruct (c =? BACKSLASH)%N.
  - destruct s1 as [|e r1]; [discriminate|].
    destruct (e =? LOWER_U)%N.
    + destruct r1 as [|a [|b [|c' [|d r2]]]]; try discriminate.
      destruct (hex4_value a b c' d) as [uni|]; [|discriminate].
      destruct r2 as [|bs [|u [|a2 [|b2 [|c2 [|d2 r4]]]]]];
        try (eapply Rec; [|exact H]; cbn [length]; lia).
      destruct (is_high_surrogate uni && (bs =? BACKSLASH)%N && (u =? LOWER_U)%N);
        [|eapply Rec; [|exact H]; cbn [length]; lia].
      destruct (hex4_value a2 b2 c2 d2) as [uni2|]; [|discriminate].
      destruct (is_low_surrogate uni2); (eapply Rec; [|exact H]; cbn [length]; lia).
    + destruct (unescape e); [|discriminate].
      eapply Rec; [|exact H]. cbn [length]. lia.
  - destruct (c <? 32)%N; [discriminate|].
    eapply Rec; [|exact H]. cbn [length]. lia.
Qed.

Lemma span_digits_length (s ds r : str) :
  span_digits s = (ds, r) -> length r <= length s.
Proof.
  revert ds r. induction s as [|c s IH]; intros ds r H.
  - injection H as _ <-. apply le_n.
  - cbn [span_digits] in H. destruct (is_digit c).
    + destruct (span_digits s) as [ds' r'] eqn:E. injection H as _ <-.
      pose proof (IH _ _ eq_refl). cbn [length]. lia.
    + injection H as _ <-. apply le_n.
Qed.

Lemma scan_integer_length (s ds r : str) :
  scan_integer s = Some (ds, r) -> length r < length s.
Proof.
  destruct s as [|c t]; [discriminate|]. cbn [scan_integer].
  destruct (c =? 48)%N.
  - intros H. injection H as _ <-. cbn. lia.
  - destruct (is_digit c); [|discriminate].
    destruct (span_digits t) as [ds' r'] eqn:E. intros H. injection H as _ <-.
    pose proof (span_digits_length _ E). cbn [length]. lia.
Qed.

Lemma scan_frac_length (r frac r1 : str) :
  scan_frac r = (frac, r1) -> length r1 <= length r.
Proof.
  destruct r as [|dot [|d t]]; cbn [scan_frac];
    try (intros H; injection H as _ <-; apply le_n).
  destruct ((dot =? 46)%N && is_digit d).
  - cbn [tl]. destruct (span_digits (d :: t)) as [ds r'] eqn:E.
    intros H. injection H as _ <-. pose proof (span_digits_length _ E). cbn [length] in *. lia.
  - intros H. injection H as _ <-. apply le_n.
Qed.

Lemma scan_exp_length (r exp r2 : str) :
  scan_exp r = (exp, r2) -> length r2 <= length r.
Proof.
  destruct r as [|e t]; cbn [scan_exp]; [intros H; injection H as _ <-; apply le_n|].
  destruct ((e =? 101)%N || (e =? 69)%N); [|intros H; injection H as _ <-; apply le_n].
  assert (G : forall sign t',
             length t' <= length t ->
             match span_digits t' with
             | ([], _) => ([], e :: t)
             | (ds, r') => (e :: sign ++ ds, r')
             end = (exp, r2) -> length r2 <= length (e :: t)).
  { intros sign t' Ht H. destruct (span_digits t') as [[|c ds] r'] eqn:E.
    - injection H as _ <-. apply le_n.
    - injection H as _ <-. pose proof (span_digits_length _ E). cbn [length]. lia. }
  destruct t as [|sg t'']; [apply (G [] []); apply le_n|].
  destruct ((sg =? 45)%N || (sg =? 43)%N).
  - apply (G [sg] t''). cbn [length]. lia.
  - apply (G [] (sg :: t'')). apply le_n.
Qed.

Lemma match_number_length (s : str) (v : pyval) (r : str) :
  match_number s = Some (v, r) -> length r < length s.
Proof.
  unfold match_number.
  destruct (scan_sign s) as [negative s1] eqn:E1.
  assert (L1 : length s1 <= length s).
  { destruct s as [|c t]; cbn [scan_sign] in E1.
    - injection E1 as _ <-. apply le_n.
    - destruct (c =? MINUS)%N; injection E1 as _ <-; cbn [length]; lia. }
  destruct (scan_integer s1) as [[digits r0]|] eqn:E2; [|discriminate].
  pose proof (scan_integer_length _ E2) as L2.
  destruct (scan_frac r0) as [frac r1] eqn:E3.
  pose proof (scan_frac_length _ E3) as L3.
  destruct (scan_exp r1) as [exp r2] eqn:E4.
  pose proof (scan_exp_length _ E4) as L4.
  destruct frac, exp; intros H; injection H as _ <-; lia.
Qed.

Lemma strip_prefix_length (p s r : str) :
  strip_prefix p s = Some r -> length s = length p + length r.
Proof.
  revert s. induction p as [|x p IH]; intros s H.
  - injection H as <-. reflexivity.
  - destruct s as [|y s]; [discriminate|]. cbn [strip_prefix] in H.
    destruct (char_eqb x y); [|discriminate]. cbn [length].
    rewrite (IH _ H). reflexivity.
Qed.

Lemma constant_length (name : string) (v v' : pyval) (s r : str) :
  lit name <> [] -> constant name v s = Some (v', r) -> length r < length s.
Proof.
  intros Hn. unfold constant. destruct (strip_prefix (lit name) s) as [r'|] eqn:E;
    [|discriminate].
  intros H. injection H as _ <-. pose proof (strip_prefix_length _ _ E) as L.
  destruct (lit name); [congruence|]. cbn [length] in L. lia.
Qed.

Lemma scan_atom_length (s : str) (v : pyval) (r : str) :
  scan_atom s = Some (v, r) -> length r < length s.
Proof.
  unfold scan_atom, or_else.
  repeat match goal with
         | |- context [match ?x with Some _ => _ | None => _ end] =>
             let E := fresh "E" in
             destruct x as [[? ?]|] eqn:E;
             [intros H; injection H as <- <-;
              first [ eapply constant_length; [|exact E]; discriminate
                    | eapply match_number_length; exact E ] |]
         end.
  intros H. eapply constant_length; [|exact H]. discriminate.
Qed.

Lemma fuel_enough (f : nat) (s : str) : length s < f -> fuel_free f s.
Proof.
  revert s. induction f as [|f IH]; intros s Hs; [inversion Hs|].
  assert (Scan : forall x f', length x < length s -> length x < f' ->
                   scan_once f x = scan_once f' x).
  { intros x f' H1 H2. apply (IH x); lia. }
  assert (ScanL : forall x v r, length x < length s ->
                    scan_once f x = Some (v, r) -> length r < length x).
  { intros x v r H1. apply (IH x); lia. }
  assert (Tail : forall x f', length x < length s -> length x < f' ->
                   array_tail f x = array_tail f' x).
  { intros x f' H1 H2. apply (IH x); lia. }
  assert (TailL : forall x vs r, length x < length s ->
                    array_tail f x = Some (vs, r) -> length r < length x).
  { intros x vs r H1. apply (IH x); lia. }
  assert (Pairs : forall x f', length x < length s -> length x < f' ->
                    object_pairs f x = object_pairs f' x).
  { intros x f' H1 H2. apply (IH x); lia. }
  assert (PairsL : forall x ps r, length x < length s ->
                     object_pairs f x = Some (ps, r) -> length r < length x).
  { intros x ps r H1. apply (IH x); lia. }
  clear IH. unfold fuel_free. repeat split.
  - (* scan_once does not depend on the fuel *)
    intros [|f'] Hf'; [inversion Hf'|].
    destruct s as [|c r]; [reflexivity|]. cbn [scan_once length] in *.
    destruct (c =? QUOTE)%N; [reflexivity|].
    pose proof (skip_ws_length r) as W.
    destruct (c =? LBRACE)%N.
    { destruct (skip_ws r) as [|c1 r1]; [reflexivity|]. cbn [length] in W.
      destruct (c1 =? RBRACE)%N; [reflexivity|].
      destruct (c1 =? QUOTE)%N; [|reflexivity].
      rewrite (Pairs r1 f') by lia. reflexivity. }
    destruct (c =? LBRACKET)%N; [|reflexivity].
    destruct (skip_ws r) as [|c1 r1]; [reflexivity|]. cbn [length] in W.
    destruct (c1 =? RBRACKET)%N; [reflexivity|].
    rewrite <- (Scan (c1 :: r1) f') by (cbn [length]; lia).
    destruct (scan_once f (c1 :: r1)) as [[v r2]|] eqn:E; [|reflexivity].
    apply ScanL in E; [|cbn [length]; lia]. cbn [length] in E.
    rewrite (Tail r2 f') by lia. reflexivity.
  - (* scan_once consumes *)
    intros v r0. destruct s as [|c r]; [discriminate|]. cbn [scan_once length] in *.
    destruct (c =? QUOTE)%N.
    { destruct (scanstring r) as [[t r']|] eqn:E; [|discriminate].
      intros H. injection H as _ <-. apply scanstring_length in E. lia. }
    pose proof (skip_ws_length r) as W.
    destruct (c =? LBRACE)%N.
    { destruct (skip_ws r) as [|c1 r1]; [discriminate|]. cbn [length] in W.
      destruct (c1 =? RBRACE)%N; [intros H; injection H as _ <-; lia|].
      destruct (c1 =? QUOTE)%N; [|discriminate].
      destruct (object_pairs f r1) as [[ps r2]|] eqn:E; [|discriminate].
      intros H. injection H as _ <-. apply PairsL in E; lia. }
    destruct (c =? LBRACKET)%N.
    { destruct (skip_ws r) as [|c1 r1]; [discriminate|]. cbn [length] in W.
      destruct (c1 =? RBRACKET)%N; [intros H; injection H as _ <-; lia|].
      destruct (scan_once f (c1 :: r1)) as [[v1 r2]|] eqn:E; [|discriminate].
      apply ScanL in E; [|cbn [length]; lia]. cbn [length] in E.
      destruct (array_tail f r2) as [[vs r3]|] eqn:E2; [|discriminate].
      intros H. injection H as _ <-. apply TailL in E2; lia. }
    intros H. apply scan_atom_length in H. cbn [length] in H. lia.
  - (* array_tail does not depend on the fuel *)
    intros [|f'] Hf'; [inversion Hf'|]. cbn [array_tail].
    pose proof (skip_ws_length s) as W.
    destruct (skip_ws s) as [|c r]; [reflexivity|]. cbn [length] in W.
    destruct (c =? RBRACKET)%N; [reflexivity|].
    destruct (c =? COMMA)%N; [|reflexivity].
    pose proof (skip_ws_length r) as W2.
    rewrite <- (Scan (skip_ws r) f') by lia.
    destruct (scan_once f (skip_ws r)) as [[v r1]|] eqn:E; [|reflexivity].
    apply ScanL in E; [|lia].
    rewrite (Tail r1 f') by lia. reflexivity.
  - (* array_tail consumes *)
    intros vs r0. cbn [array_tail].
    pose proof (skip_ws_length s) as W.
    destruct (skip_ws s) as [|c r]; [discriminate|]. cbn [length] in W.
    destruct (c =? RBRACKET)%N; [intros H; injection H as _ <-; lia|].
    destruct (c =? COMMA)%N; [|discriminate].
    pose proof (skip_ws_length r) as W2.
    destruct (scan_once f (skip_ws r)) as [[v r1]|] eqn:E; [|discriminate].
    apply ScanL in E; [|lia].
    destruct (array_tail f r1) as [[vs' r2]|] eqn:E2; [|discriminate].
    intros H. injection H as _ <-. apply TailL in E2; lia.
  - (* object_pairs does not depend on the fuel *)
    intros [|f'] Hf'; [inversion Hf'|]. cbn [object_pairs].
    destruct (scanstring s) as [[key r]|] eqn:K; [|reflexivity].
    apply scanstring_length in K.
    pose proof (skip_ws_length r) as W.
    destruct (skip_ws r) as [|c r1]; [reflexivity|]. cbn [length] in W.
    destruct (c =? COLON)%N; [|reflexivity].
    pose proof (skip_ws_length r1) as W1.
    rewrite <- (Scan (skip_ws r1) f') by lia.
    destruct (scan_once f (skip_ws r1)) as [[v r2]|] eqn:E; [|reflexivity].
    apply ScanL in E; [|lia].
    pose proof (skip_ws_length r2) as W2.
    destruct (skip_ws r2) as [|c2 r3]; [reflexivity|]. cbn [length] in W2.
    destruct (c2 =? RBRACE)%N; [reflexivity|].
    destruct (c2 =? COMMA)%N; [|reflexivity].
    pose proof (skip_ws_length r3) as W3.
    destruct (skip_ws r3) as [|c3 r4]; [reflexivity|]. cbn [length] in W3.
    destruct (c3 =? QUOTE)%N; [|reflexivity].
    rewrite (Pairs r4 f') by lia. reflexivity.
  - (* object_pairs consumes *)
    intros ps r0. cbn [object_pairs].
    destruct (scanstring s) as [[key r]|] eqn:K; [|discriminate].
    apply scanstring_length in K.
    pose proof (skip_ws_length r) as W.
    destruct (skip_ws r) as [|c r1]; [discriminate|]. cbn [length] in W.
    destruct (c =? COLON)%N; [|discriminate].
    pose proof (skip_ws_length r1) as W1.
    destruct (scan_once f (skip_ws r1)) as [[v r2]|] eqn:E; [|discriminate].
    apply ScanL in E; [|lia].
    pose proof (skip_ws_length r2) as W2.
    destruct (skip_ws r2) as [|c2 r3]; [discriminate|]. cbn [length] in W2.
    destruct (c2 =? RBRACE)%N; [intros H; injection H as _ <-; lia|].
    destruct (c2 =? COMMA)%N; [|discriminate].
    pose proof (skip_ws_length r3) as W3.
    destruct (skip_ws r3) as [|c3 r4]; [discriminate|]. cbn [length] in W3.
    destruct (c3 =? QUOTE)%N; [|discriminate].
    destruct (object_pairs f r4) as [[ps' r5]|] eqn:E2; [|discriminate].
    intros H. injection H as _ <-. apply PairsL in E2; lia.
Qed.

(** [loads] with any larger fuel gives the same result: a [None] is a syntax
    error of the text, never a lack of fuel. *)
Lemma loads_fuel (s : str) (f : nat) :
  length s < f ->
  scan_once f (skip_ws s) = scan_once (S (length s)) (skip_ws s).
Proof.
  intros H. pose proof (skip_ws_length s) as W.
  apply (@fuel_enough f (skip_ws s)); lia.
Qed.

End JsonFacts.

(* ================================================================= *)
(** ** Facts about the store *)

Section StoreFacts.
Variable rt : runtime.

Lemma load_courses_eq (st : state) :
  load_courses st = (load_result (file st), st).
Proof.
  unfold load_courses, bind, path_exists, read_file, json_load, load_result.
  destruct (file st) as [text|] eqn:E; cbn [negb]; [|reflexivity].
  rewrite E. destruct (Json.loads text); reflexivity.
Qed.

Lemma save_courses_eq (data : pyval) (st : state) :
  save_courses rt data st
  = match load_result (file st) with
    | inl e => (inl e, st)
    | inr v =>
        match Py.append v data with
        | inl e => (inl e, st)
        | inr v' => (inr tt, with_file st (Some (json_dump_indent4 rt v')))
        end
    end.
Proof.
  unfold save_courses. unfold bind at 1. rewrite load_courses_eq.
  destruct (load_result (file st)) as [e|v]; [reflexivity|].
  unfold bind, lift, write_file. destruct (Py.append v data); reflexivity.
Qed.

Lemma load_result_dump (l : list pyval) :
  forallb storable l = true ->
  load_result (Some (json_dump_indent4 rt (VList l))) = inr (VList l).
Proof.
  intros H. unfold load_result, json_dump_indent4.
  rewrite JsonFacts.loads_dumps; [reflexivity | exact H].
Qed.

Lemma forallb_snoc {A : Type} (p : A -> bool) (l : list A) (x : A) :
  forallb p l = true -> p x = true -> forallb p (l ++ [x]) = true.
Proof.
  intros Hl Hx. rewrite forallb_app, Hl. cbn. now rewrite Hx.
Qed.

(** [save_courses] on a store that holds [l]: the file becomes the encoding
    of [l] followed by the new record, and loads as such. *)
Lemma save_courses_appends (data : pyval) (st : state) (l : list pyval) :
  holds st l -> forallb storable l = true -> storable data = true ->
  save_courses rt data st
    = (inr tt, with_file st (Some (json_dump_indent4 rt (VList (l ++ [data])))))
  /\ holds (with_file st (Some (json_dump_indent4 rt (VList (l ++ [data]))))) (l ++ [data]).
Proof.
  intros Hl Sl Sd. unfold holds in *. split.
  - rewrite save_courses_eq, Hl. reflexivity.
  - cbn [file with_file]. apply load_result_dump. now apply forallb_snoc.
Qed.

Lemma storable_new_course (code name instructor semester : str) :
  unicode_text code = true -> unicode_text name = true ->
  unicode_text instructor = true -> unicode_text semester = true ->
  storable (new_course code name instructor semester) = true.
Proof.
  intros H1 H2 H3 H4. cbn. unfold unicode_text in *. now rewrite H1, H2, H3, H4.
Qed.

Lemma storable_to_py (c : course_record) : wf_course c = true -> storable (to_py c) = true.
Proof.
  unfold wf_course. intros H.
  apply andb_true_iff in H. destruct H as [H H4].
  apply andb_true_iff in H. destruct H as [H H3].
  apply andb_true_iff in H. destruct H as [H1 H2].
  now apply storable_new_course.
Qed.

Lemma storable_records (rs : list course_record) :
  forallb wf_course rs = true -> forallb storable (map to_py rs) = true.
Proof.
  induction rs as [|c rs IH]; intros H; [reflexivity|].
  cbn [forallb] in H. apply andb_true_iff in H. destruct H as [Hc Hrs].
  cbn [map forallb]. now rewrite storable_to_py, IH.
Qed.

(** A name shorter than four characters is upper-cased as a whole. *)
Lemma new_code_whole_name (course_name : str) (n : nat) :
  length course_name < 4 ->
  new_code rt course_name n
  = upper (unicode_upper rt) course_name ++ int_repr (Z.of_nat n + 1).
Proof.
  intros H. unfold new_code, slice_to. rewrite firstn_all2 by lia. reflexivity.
Qed.

Lemma unicode_text_new_code (name : str) (n : nat) :
  upper_preserves_text rt -> unicode_text name = true ->
  unicode_text (new_code rt name n) = true.
Proof.
  intros Hup Hn. unfold new_code, slice_to. apply unicode_text_app.
  - apply unicode_text_upper; [exact Hup|]. now apply unicode_text_firstn.
  - apply unicode_text_int_repr.
Qed.

(** [save_courses] for each record in turn appends them all, in order. *)
Lemma save_all_appends (ds : list pyval) :
  forallb storable ds = true ->
  forall st l, holds st l -> forallb storable l = true ->
    exists st', save_all rt ds st = (inr tt, st') /\ holds st' (l ++ ds).
Proof.
  induction ds as [|d ds IH]; intros Hds st l Hl Sl.
  - exists st. split; [reflexivity|]. now rewrite app_nil_r.
  - cbn [forallb] in Hds. apply andb_true_iff in Hds. destruct Hds as [Sd Sds].
    destruct (save_courses_appends d Hl Sl Sd) as [E H'].
    destruct (IH Sds _ (l ++ [d]) H') as (st' & E' & H'').
    { now apply forallb_snoc. }
    exists st'. split.
    + cbn [save_all]. unfold bind. rewrite E. exact E'.
    + rewrite <- app_assoc in H''. exact H''.
Qed.

End StoreFacts.

(* ================================================================= *)
(** ** Facts about the handlers *)

Section HandlerFacts.
Variable rt : runtime.

Lemma is_empty_false (s : str) : s <> [] -> is_empty s = false.
Proof. destruct s; [congruence|reflexivity]. Qed.

Lemma is_empty_true (s : str) : s = [] -> is_empty s = true.
Proof. intros ->. reflexivity. Qed.

(** A valid submission: the handler raises before it saves. *)
Lemma add_course_valid_eq (rq : request) (st : state) :
  valid_submission rq ->
  let course_name := strip (form_get rq "name") in
  let instructor := strip (form_get rq "instructor") in
  let semester := strip (form_get rq "semester") in
  add_course rt rq st
  = match load_result (file st) with
    | inl e => (inl e, finished st (lit "add_course_route") [] (Error (OfException e)))
    | inr v =>
        match len v with
        | inl e => (inl e, finished st (lit "add_course_route") [] (Error (OfException e)))
        | inr n =>
            (inl (NameError "code"),
             finished st (lit "add_course_route")
               [(lit "course.data",
                 AttrStr (json_dumps rt (new_course (new_code rt course_name n)
                                           course_name instructor semester)))]
               (Error (OfException (NameError "code"))))
        end
    end.
Proof.
  intros (Hm & Hn & Hi). cbv zeta.
  unfold add_course, start_as_current_span. rewrite Hm.
  rewrite (is_empty_false Hn), (is_empty_false Hi). cbn [orb].
  unfold bind at 1. rewrite load_courses_eq. cbn [file with_span_of].
  destruct (load_result (file st)) as [e|v]; [reflexivity|].
  unfold bind at 1. unfold lift at 1.
  destruct (len v) as [e|n]; reflexivity.
Qed.

(** A submission that fails the validation. *)
Lemma add_course_invalid_eq (rq : request) (st : state) :
  method rq = POST ->
  strip (form_get rq "name") = [] \/ strip (form_get rq "instructor") = [] ->
  add_course rt rq st
  = (inr (Render "add_course.html" []),
     with_flashes
       (finished st (lit "add_course_route") [] (Error (Text (lit "Validation failed"))))
       (flashes st ++ [(lit "error", lit "Course name and instructor are required!")])).
Proof.
  intros Hm H. unfold add_course, start_as_current_span. rewrite Hm.
  assert (E : is_empty (strip (form_get rq "name"))
              || is_empty (strip (form_get rq "instructor")) = true).
  { destruct H as [H|H]; rewrite H; cbn; [reflexivity|apply orb_true_r]. }
  rewrite E. reflexivity.
Qed.

Lemma add_course_get_eq (rq : request) (st : state) :
  method rq <> POST ->
  add_course rt rq st
  = (inr (Render "add_course.html" []),
     finished st (lit "add_course_route") [(lit "http.status_code", AttrInt 200)] Unset).
Proof.
  intros Hm. unfold add_course, start_as_current_span.
  destruct (method rq); try congruence; reflexivity.
Qed.

Lemma add_course_file (rq : request) (st : state) :
  file (snd (add_course rt rq st)) = file st.
Proof.
  destruct (method rq) eqn:Hm.
  - rewrite add_course_get_eq by congruence. reflexivity.
  - rewrite add_course_get_eq by congruence. reflexivity.
  - destruct (strip (form_get rq "name")) as [|c n] eqn:En.
    { rewrite add_course_invalid_eq by auto. reflexivity. }
    destruct (strip (form_get rq "instructor")) as [|c' i] eqn:Ei.
    { rewrite add_course_invalid_eq by auto. reflexivity. }
    rewrite add_course_valid_eq.
    + destruct (load_result (file st)) as [e|v]; [reflexivity|].
      destruct (len v); reflexivity.
    + unfold valid_submission. rewrite En, Ei. repeat split; congruence.
Qed.

Lemma index_file (rq : request) (st : state) : file (snd (index rq st)) = file st.
Proof. reflexivity. Qed.

Lemma course_catalog_eq (rq : request) (st : state) :
  course_catalog rq st
  = match load_result (file st) with
    | inl e =>
        (inl e, finished st (lit "course_catalog_route")
                  [(lit "user.ip", AttrStr (remote_addr rq))] (Error (OfException e)))
    | inr v =>
        match len v with
        | inl e =>
            (inl e, finished st (lit "course_catalog_route")
                      [(lit "user.ip", AttrStr (remote_addr rq))] (Error (OfException e)))
        | inr n =>
            (inr (Render "course_catalog.html" [("courses"%string, v)]),
             finished st (lit "course_catalog_route")
               [(lit "user.ip", AttrStr (remote_addr rq));
                (lit "courses.count", AttrInt (Z.of_nat n));
                (lit "http.status_code", AttrInt 200)] Unset)
        end
    end.
Proof.
  unfold course_catalog, start_as_current_span.
  unfold bind at 1. unfold set_attribute at 1.
  unfold bind at 1. rewrite load_courses_eq. cbn [file with_span_of].
  destruct (load_result (file st)) as [e|v]; [reflexivity|].
  unfold bind at 1. unfold lift at 1.
  destruct (len v) as [e|n]; reflexivity.
Qed.

Lemma course_catalog_file (rq : request) (st : state) :
  file (snd (course_catalog rq st)) = file st.
Proof.
  rewrite course_catalog_eq.
  destruct (load_result (file st)) as [e|v]; [reflexivity|].
  destruct (len v); reflexivity.
Qed.

(** The outcome of [course_details], by what the scan of line 142 gives. *)
Lemma course_details_eq (code : str) (st : state) :
  let name := lit "course_details_route:" ++ code in
  course_details rt code st
  = match load_result (file st) with
    | inl e => (inl e, finished st name [] (Error (OfException e)))
    | inr v =>
        match iterate v with
        | inl e => (inl e, finished st name [] (Error (OfException e)))
        | inr items =>
            match next_match items code with
            | inl e => (inl e, finished st name [] (Error (OfException e)))
            | inr course =>
                if truthy (float_is_zero rt) course
                then (inr (Render "course_details.html" [("course"%string, course)]),
                      finished st name [] Unset)
                else
                  (inr (Redirect "course_catalog"),
                   with_flashes
                     (with_log
                        (finished st name [(lit "http.status_code", AttrInt 404)]
                           (Error (Text (lit "Course not found"))))
                        (log st ++ [lit "Course with code '" ++ code ++ lit "' not found."]))
                     (flashes st ++ [(lit "error",
                                      lit "No course found with code '" ++ code ++ lit "'.")]))
            end
        end
    end.
Proof.
  cbv zeta. unfold course_details, start_as_current_span.
  unfold bind at 1. rewrite load_courses_eq. cbn [file with_span_of].
  destruct (load_result (file st)) as [e|v]; [reflexivity|].
  unfold bind at 1. unfold lift at 1.
  destruct (iterate v) as [e|items]; [reflexivity|].
  unfold bind at 1. unfold lift at 1.
  destruct (next_match items code) as [e|course]; [reflexivity|].
  destruct (truthy (float_is_zero rt) course); reflexivity.
Qed.

Lemma course_details_file (code : str) (st : state) :
  file (snd (course_details rt code st)) = file st.
Proof.
  rewrite course_details_eq.
  destruct (load_result (file st)) as [e|v]; [reflexivity|].
  destruct (iterate v) as [e|items]; [reflexivity|].
  destruct (next_match items code) as [e|course]; [reflexivity|].
  destruct (truthy (float_is_zero rt) course); reflexivity.
Qed.

(** *** The scan of line 142 *)

Lemma eq_str_true (v : pyval) (code : str) : eq_str v code = true <-> v = VStr code.
Proof.
  destruct v; cbn; split; try discriminate; try congruence.
  - intros H. apply str_eqb_eq in H. congruence.
  - intros H. injection H as ->. apply str_eqb_refl.
Qed.

Lemma has_code_getitem (v : pyval) :
  has_code v = true -> exists c, getitem v (lit "code") = inr c.
Proof.
  destruct v; try discriminate. cbn [has_code getitem].
  destruct (dict_get _ _) as [c|]; [|discriminate]. intros _. now exists c.
Qed.

Lemma next_match_skip (x : pyval) (rest : list pyval) (code : str) :
  has_code x = true -> ~ matches code x ->
  next_match (x :: rest) code = next_match rest code.
Proof.
  intros Hc Hn. destruct (has_code_getitem _ Hc) as (c & E).
  cbn [next_match]. rewrite E.
  destruct (eq_str c code) eqn:Q; [|reflexivity].
  apply eq_str_true in Q. subst c. contradiction.
Qed.

Lemma next_match_prefix (l1 rest : list pyval) (code : str) :
  forallb has_code l1 = true -> Forall (fun x => ~ matches code x) l1 ->
  next_match (l1 ++ rest) code = next_match rest code.
Proof.
  induction l1 as [|x l1 IH]; intros Hc Hn; [reflexivity|].
  cbn [forallb] in Hc. apply andb_true_iff in Hc. destruct Hc as [Hx Hc].
  inversion Hn as [|? ? Nx Nl]; subst.
  cbn [app]. rewrite next_match_skip by assumption. now apply IH.
Qed.

Lemma next_match_here (c : pyval) (rest : list pyval) (code : str) :
  matches code c -> next_match (c :: rest) code = inr c.
Proof.
  unfold matches. intros E. cbn [next_match]. rewrite E.
  cbn [eq_str]. now rewrite str_eqb_refl.
Qed.

Lemma next_match_raises (bad : pyval) (rest : list pyval) (code : str) (e : exn) :
  getitem bad (lit "code") = inl e -> next_match (bad :: rest) code = inl e.
Proof. intros E. cbn [next_match]. now rewrite E. Qed.

Lemma matches_truthy (c : pyval) (code : str) :
  matches code c -> truthy (float_is_zero rt) c = true.
Proof.
  unfold matches. destruct c as [ | | | | | | d ]; try discriminate.
  destruct d as [|kv d]; [discriminate|reflexivity].
Qed.

Lemma next_match_outcome (code : str) (l : list pyval) :
  forallb has_code l = true ->
  (exists l1 c l2, l = l1 ++ c :: l2 /\ Forall (fun x => ~ matches code x) l1
                   /\ matches code c /\ next_match l code = inr c)
  \/ (Forall (fun x => ~ matches code x) l /\ next_match l code = inr VNone).
Proof.
  intros Hc. induction l as [|x l IH].
  - right. split; [constructor|reflexivity].
  - cbn [forallb] in Hc. apply andb_true_iff in Hc. destruct Hc as [Hx Hc].
    destruct (has_code_getitem _ Hx) as (c & E).
    destruct (eq_str c code) eqn:Q.
    + apply eq_str_true in Q. subst c. left. exists [], x, l.
      repeat split; [constructor | exact E | now apply next_match_here].
    + assert (Nx : ~ matches code x).
      { unfold matches. intros M. rewrite M in E. injection E as <-.
        cbn in Q. rewrite str_eqb_refl in Q. discriminate. }
      rewrite next_match_skip by assumption.
      destruct (IH Hc) as [(l1 & c0 & l2 & -> & Hn & Hm & Hr) | (Hn & Hr)].
      * left. exists (x :: l1), c0, l2. repeat split; auto.
      * right. split; [now constructor|exact Hr].
Qed.

End HandlerFacts.

(* ================================================================= *)
(** ** The claims *)

Section Claims.
Variable rt : runtime.

(** C1. Submit add-form with non-empty trimmed name and instructor. The
    specification has the handler build the record, append it, mark the span OK
    and redirect to the catalog. The handler does not get that far: for every
    valid submission it raises, it returns no response, the backing file is left
    as it was and the span ends with an error status; whenever the store loads
    and has a length, the exception is the [NameError] for [code] of line 123. *)
Theorem add_course_valid_raises (rq : request) (st : state) :
  valid_submission rq ->
  exists e st',
    add_course rt rq st = (inl e, st')
    /\ file st' = file st
    /\ status (current_span st') = Error (OfException e)
    /\ (forall v n, load_result (file st) = inr v -> len v = inr n ->
          e = NameError "code").
Proof.
  intros Hv. rewrite (@add_course_valid_eq rt rq st Hv).
  destruct (load_result (file st)) as [e|v].
  - exists e. eexists. repeat split. intros v n H. discriminate.
  - destruct (len v) as [e|n] eqn:L.
    + exists e. eexists. repeat split. intros v' n' H1 H2.
      injection H1 as <-. congruence.
    + exists (NameError "code"). eexists. repeat split.
Qed.

(** C3. A submission whose name or instructor is empty after trimming: nothing
    is persisted (the backing file is unchanged), the span is marked as error
    with the description "Validation failed", the error message is flashed and
    the form is rendered again. *)
Theorem add_course_rejects_blank (rq : request) (st : state) :
  method rq = POST ->
  strip (form_get rq "name") = [] \/ strip (form_get rq "instructor") = [] ->
  exists st',
    add_course rt rq st = (inr (Render "add_course.html" []), st')
    /\ file st' = file st
    /\ status (current_span st') = Error (Text (lit "Validation failed"))
    /\ flashes st'
       = flashes st ++ [(lit "error", lit "Course name and instructor are required!")].
Proof.
  intros Hm H. rewrite (@add_course_invalid_eq rt rq st Hm H).
  eexists. repeat split.
Qed.

(** C4. [load_courses] returns the empty list, not an error, when the backing
    file does not exist; when the file exists and decodes it returns the decoded
    contents; and a file that holds the encoding of a sequence loads as that
    sequence, in the same order. The state is not changed. *)
Theorem load_courses_missing_or_decoded (st : state) :
  (file st = None -> load_courses st = (inr (VList []), st))
  /\ (forall text v, file st = Some text -> Json.loads text = Some v ->
        load_courses st = (inr v, st))
  /\ (forall l, forallb storable l = true ->
        file st = Some (json_dump_indent4 rt (VList l)) ->
        load_courses st = (inr (VList l), st)).
Proof.
  rewrite load_courses_eq. repeat split.
  - intros ->. reflexivity.
  - intros text v -> H. cbn [load_result]. now rewrite H.
  - intros l Hl ->. now rewrite load_result_dump.
Qed.

(** C5. When the backing file exists and cannot be decoded, [load_courses]
    raises the decode error and so does every operation that calls it:
    [save_courses], the catalog, the detail view and a valid submission. No
    handler catches it, and the file is left as it was. *)
Theorem undecodable_file_is_fatal (st : state) (text : str) :
  file st = Some text -> Json.loads text = None ->
  load_courses st = (inl JSONDecodeError, st)
  /\ (forall data, save_courses rt data st = (inl JSONDecodeError, st))
  /\ (forall rq, exists st', course_catalog rq st = (inl JSONDecodeError, st')
                             /\ file st' = file st)
  /\ (forall code, exists st', course_details rt code st = (inl JSONDecodeError, st')
                               /\ file st' = file st)
  /\ (forall rq, valid_submission rq ->
        exists st', add_course rt rq st = (inl JSONDecodeError, st')
                    /\ file st' = file st).
Proof.
  intros Hf Hd.
  assert (L : load_result (file st) = inl JSONDecodeError).
  { rewrite Hf. cbn [load_result]. now rewrite Hd. }
  repeat split.
  - now rewrite load_courses_eq, L.
  - intros data. now rewrite save_courses_eq, L.
  - intros rq. rewrite course_catalog_eq, L. eexists. split; reflexivity.
  - intros code. rewrite course_details_eq, L. eexists. split; reflexivity.
  - intros rq Hv. rewrite (@add_course_valid_eq rt rq st Hv), L. eexists. split; reflexivity.
Qed.

(** C7. The detail lookup scans the loaded sequence in stored order and
    returns the first record whose code field is exactly the requested string
    (code points compared one by one, so case matters); when no record has that
    code it signals not-found (redirect to the catalog, span marked as error,
    message flashed) instead of failing. The backing file is not changed. The
    store is a sequence of records that each have a code field. *)
Theorem course_details_finds_first (code : str) (st : state) (l : list pyval) :
  holds st l -> forallb has_code l = true ->
  (forall l1 c l2,
      l = l1 ++ c :: l2 -> Forall (fun x => ~ matches code x) l1 -> matches code c ->
      exists st',
        course_details rt code st
          = (inr (Render "course_details.html" [("course"%string, c)]), st')
        /\ file st' = file st)
  /\ (Forall (fun x => ~ matches code x) l ->
      exists st',
        course_details rt code st = (inr (Redirect "course_catalog"), st')
        /\ file st' = file st
        /\ status (current_span st') = Error (Text (lit "Course not found"))
        /\ flashes st'
           = flashes st ++ [(lit "error",
                             lit "No course found with code '" ++ code ++ lit "'.")]).
Proof.
  intros Hl Hc. unfold holds in Hl. split.
  - intros l1 c l2 -> Hn Hm.
    rewrite forallb_app in Hc. apply andb_true_iff in Hc. destruct Hc as [Hc1 _].
    rewrite course_details_eq, Hl. cbn [iterate].
    rewrite next_match_prefix by assumption.
    rewrite next_match_here by exact Hm.
    rewrite (@matches_truthy rt _ _ Hm). eexists. split; reflexivity.
  - intros Hn. rewrite course_details_eq, Hl. cbn [iterate].
    rewrite <- (app_nil_r l). rewrite next_match_prefix by assumption.
    cbn [next_match truthy]. eexists. repeat split.
Qed.

(** C9. A valid submission whose trimmed name is shorter than four
    characters: the derivation of line 113 does not fail and pads nothing. The
    code is the whole upper-cased name followed by the position number, and it is
    the code of the record that the handler encodes into the span attribute
    [course.data]. *)
Theorem new_code_short_name (rq : request) (st : state) (v : pyval) (n : nat) :
  valid_submission rq ->
  length (strip (form_get rq "name")) < 4 ->
  load_result (file st) = inr v -> len v = inr n ->
  let course_name := strip (form_get rq "name") in
  let instructor := strip (form_get rq "instructor") in
  let semester := strip (form_get rq "semester") in
  let code := upper (unicode_upper rt) course_name ++ int_repr (Z.of_nat n + 1) in
  new_code rt course_name n = code
  /\ attributes (current_span (snd (add_course rt rq st)))
     = [(lit "course.data",
         AttrStr (json_dumps rt (new_course code course_name instructor semester)))].
Proof.
  intros Hv Hlen Hl Hn. cbv zeta.
  rewrite (@add_course_valid_eq rt rq st Hv), Hl, Hn.
  rewrite (new_code_whole_name rt _ n Hlen). split; reflexivity.
Qed.

(** C10. Decoded contents are not validated: [load_courses] returns whatever
    the file decodes to. The detail lookup reads the code field of each record it
    scans: when every record has one the lookup returns a response (the record
    or not-found); when a record scanned before any match cannot give its code
    field the lookup raises that error, [KeyError] for a dict without the key. *)
Theorem course_details_needs_code_field (code : str) (st : state) :
  (forall text v, file st = Some text -> Json.loads text = Some v ->
     load_courses st = (inr v, st))
  /\ (forall l, holds st l -> forallb has_code l = true ->
        exists resp st', course_details rt code st = (inr resp, st'))
  /\ (forall l1 bad l2 e,
        holds st (l1 ++ bad :: l2) -> forallb has_code l1 = true ->
        Forall (fun x => ~ matches code x) l1 ->
        getitem bad (lit "code") = inl e ->
        exists st', course_details rt code st = (inl e, st'))
  /\ (forall l1 d l2,
        holds st (l1 ++ VDict d :: l2) -> forallb has_code l1 = true ->
        Forall (fun x => ~ matches code x) l1 ->
        dict_get d (lit "code") = None ->
        exists st', course_details rt code st = (inl (KeyError (lit "code")), st')).
Proof.
  assert (R : forall l1 bad l2 e,
             holds st (l1 ++ bad :: l2) -> forallb has_code l1 = true ->
             Forall (fun x => ~ matches code x) l1 ->
             getitem bad (lit "code") = inl e ->
             exists st', course_details rt code st = (inl e, st')).
  { intros l1 bad l2 e Hl Hc Hn Hb. unfold holds in Hl.
    rewrite course_details_eq, Hl. cbn [iterate].
    rewrite next_match_prefix by assumption.
    rewrite (@next_match_raises bad l2 code e Hb). eexists. reflexivity. }
  repeat split.
  - intros text v Hf Hd. rewrite load_courses_eq, Hf. cbn [load_result]. now rewrite Hd.
  - intros l Hl Hc. unfold holds in Hl. rewrite course_details_eq, Hl. cbn [iterate].
    destruct (next_match_outcome code l Hc)
      as [(l1 & c & l2 & -> & Hn & Hm & Hr) | (Hn & Hr)]; rewrite Hr.
    + rewrite (@matches_truthy rt _ _ Hm). eexists. eexists. reflexivity.
    + cbn [truthy negb]. eexists. eexists. reflexivity.
  - exact R.
  - intros l1 d l2 Hl Hc Hn Hd. apply (R l1 (VDict d) l2); try assumption.
    cbn [getitem]. now rewrite Hd.
Qed.

(** Store level only: a record assembled from trimmed fields and the length
    of the held sequence, once appended by [save_courses], is the last element
    of what [load_courses] returns. *)
Theorem append_then_load_ends_with_submission
  (rq : request) (st : state) (l : list pyval) :
  valid_submission rq ->
  unicode_text (form_get rq "name") = true ->
  unicode_text (form_get rq "instructor") = true ->
  unicode_text (form_get rq "semester") = true ->
  upper_preserves_text rt ->
  holds st l -> forallb storable l = true ->
  let course_name := strip (form_get rq "name") in
  let instructor := strip (form_get rq "instructor") in
  let semester := strip (form_get rq "semester") in
  let course :=
    new_course (new_code rt course_name (length l)) course_name instructor semester in
  exists st' l',
    save_courses rt course st = (inr tt, st')
    /\ load_courses st' = (inr (VList l'), st')
    /\ length l' = S (length l)
    /\ last l' VNone = course
    /\ getitem course (lit "name") = inr (VStr course_name)
    /\ getitem course (lit "instructor") = inr (VStr instructor)
    /\ getitem course (lit "semester") = inr (VStr semester)
    /\ getitem course (lit "code")
       = inr (VStr (upper (unicode_upper rt) (slice_to 4 course_name)
                      ++ int_repr (Z.of_nat (length l) + 1))).
Proof.
  intros Hv Un Ui Us Hup Hl Sl. cbv zeta.
  set (course := new_course _ _ _ _).
  assert (Sc : storable course = true).
  { apply storable_new_course; try (now apply unicode_text_strip).
    apply unicode_text_new_code; [exact Hup|now apply unicode_text_strip]. }
  destruct (save_courses_appends rt course Hl Sl Sc) as [E H'].
  eexists. exists (l ++ [course]). split; [exact E|].
  split; [rewrite load_courses_eq; now rewrite H'|].
  split; [rewrite length_app; cbn; lia|].
  split; [apply last_last|].
  repeat split.
Qed.


(** C6. Round trip. Writing a sequence of course records the way the store
    writes (the encoding of line 69) and reading it back the way the store reads
    (line 60) gives the same sequence, in order and field by field; and the
    records saved one after the other into a store reload as what the store held
    followed by exactly them. The fields are Unicode text. *)
Theorem persist_reload_round_trip (rs : list course_record) :
  forallb wf_course rs = true ->
  Json.loads (json_dump_indent4 rt (VList (map to_py rs))) = Some (VList (map to_py rs))
  /\ (forall st l, holds st l -> forallb storable l = true ->
        exists st', save_all rt (map to_py rs) st = (inr tt, st')
                    /\ load_courses st' = (inr (VList (l ++ map to_py rs)), st')).
Proof.
  intros H. pose proof (storable_records rs H) as S. split.
  - unfold json_dump_indent4. now apply JsonFacts.loads_dumps.
  - intros st l Hl Sl.
    destruct (save_all_appends rt _ S Hl Sl) as (st' & E & H').
    exists st'. split; [exact E|]. rewrite load_courses_eq. now rewrite H'.
Qed.

(** C8. Append-only. [save_courses] rewrites the backing file with the
    encoding of the sequence the store held, unchanged and in the same order,
    followed by the one new record, and the store then holds exactly that. After
    any handler the store still holds what it held, in the same order, possibly
    followed by new records: no record is changed or removed. *)
Theorem store_is_append_only (st : state) (l : list pyval) :
  holds st l -> forallb storable l = true ->
  (forall data, storable data = true ->
     exists st', save_courses rt data st = (inr tt, st')
                 /\ file st' = Some (json_dump_indent4 rt (VList (l ++ [data])))
                 /\ holds st' (l ++ [data]))
  /\ (forall rq, extends l (snd (index rq st)))
  /\ (forall rq, extends l (snd (course_catalog rq st)))
  /\ (forall rq, extends l (snd (add_course rt rq st)))
  /\ (forall code, extends l (snd (course_details rt code st))).
Proof.
  intros Hl Sl.
  assert (K : forall st', file st' = file st -> extends l st').
  { intros st' E. exists []. unfold holds in *. now rewrite app_nil_r, E. }
  repeat split.
  - intros data Sd. destruct (save_courses_appends rt data Hl Sl Sd) as [E H'].
    eexists. split; [exact E|]. split; [reflexivity|exact H'].
  - intros rq. apply K, index_file.
  - intros rq. apply K, course_catalog_file.
  - intros rq. apply K, add_course_file.
  - intros code. apply K, course_details_file.
Qed.

End Claims.

(* ================================================================= *)
(** ** Further facts about text and the codec *)

Lemma lstrip_blank (s : str) : blank s = true -> lstrip s = [].
Proof.
  induction s as [|c s IH]; intros H; [reflexivity|].
  cbn [blank forallb] in H. apply andb_true_iff in H. destruct H as [Hc Hs].
  cbn [lstrip]. rewrite Hc. now apply IH.
Qed.

Lemma strip_blank (s : str) : blank s = true -> strip s = [].
Proof. intros H. unfold strip. now rewrite (lstrip_blank s H). Qed.

Lemma lstrip_head (s : str) (c : char) (t : str) :
  lstrip s = c :: t -> is_space c = false.
Proof.
  induction s as [|x s IH]; [discriminate|]. cbn [lstrip].
  destruct (is_space x) eqn:E; [exact IH|]. intros H. injection H as <- _. exact E.
Qed.

Lemma lstrip_keeps_last (a : str) (c : char) :
  is_space c = false -> lstrip (a ++ [c]) = lstrip a ++ [c].
Proof.
  intros Hc. induction a as [|x a IH].
  - cbn. now rewrite Hc.
  - cbn [app lstrip]. destruct (is_space x); [exact IH|reflexivity].
Qed.

Lemma lstrip_fixed (c : char) (t : str) : is_space c = false -> lstrip (c :: t) = c :: t.
Proof. intros H. cbn. now rewrite H. Qed.

Lemma form_get_missing (rq : request) (key : string) :
  field_missing rq key -> form_get rq key = [].
Proof.
  unfold field_missing, form_get. intros H.
  destruct (find _ (form rq)) as [kv|] eqn:E; [|reflexivity].
  apply find_some in E. destruct E as [Hin Heq].
  apply str_eqb_eq in Heq. elim (H kv Hin Heq).
Qed.

(** *** The encoder writes ASCII *)

Lemma ascii_app (a b : str) :
  forallb is_ascii a = true -> forallb is_ascii b = true ->
  forallb is_ascii (a ++ b) = true.
Proof. intros Ha Hb. now rewrite forallb_app, Ha, Hb. Qed.

Lemma ascii_uint_chars (d : Decimal.uint) : forallb is_ascii (uint_chars d) = true.
Proof. induction d; cbn; try exact IHd; reflexivity. Qed.

Lemma ascii_int_repr (z : Z) : forallb is_ascii (int_repr z) = true.
Proof.
  unfold int_repr. destruct (Z.to_int z); [|cbn [forallb]; rewrite andb_true_l];
    apply ascii_uint_chars.
Qed.

Lemma ascii_hex_digit (d : N) : (d < 16)%N -> is_ascii (Json.hex_digit d) = true.
Proof.
  intros H. unfold Json.hex_digit, is_ascii.
  destruct (N.ltb_spec d 10); apply N.ltb_lt; lia.
Qed.

Lemma ascii_hex4 (n : N) : (n < 65536)%N -> forallb is_ascii (Json.hex4 n) = true.
Proof.
  intros H. unfold Json.hex4. cbn [forallb].
  assert (L : (n / 4096 < 16)%N) by (apply N.Div0.div_lt_upper_bound; lia).
  rewrite !ascii_hex_digit; try reflexivity; try exact L;
    apply N.mod_lt; discriminate.
Qed.

Lemma surrogate_lt (base x : N) :
  (base = 54 \/ base = 55)%N ->
  (N.lor (base * 2 ^ 10) (N.land x 1023) < 65536)%N.
Proof.
  intros Hb. change 1023%N with (N.ones 10). rewrite N.land_ones.
  pose proof (N.mod_lt x (2 ^ 10) ltac:(discriminate)) as L.
  rewrite JsonFacts.lor_pow2_add by exact L.
  remember (x mod 2 ^ 10)%N as m eqn:M. clear M.
  change (2 ^ 10)%N with 1024%N in *. destruct Hb as [-> | ->]; lia.
Qed.

Lemma ascii_escape_char (c : char) : forallb is_ascii (Json.escape_char c) = true.
Proof.
  unfold Json.escape_char.
  repeat match goal with
         | |- context [if (c =? ?k)%N then _ else _] =>
             destruct (c =? k)%N; [reflexivity|]
         end.
  destruct (in_range 32 126 c) eqn:R.
  { unfold in_range in R. apply andb_true_iff in R. destruct R as [_ R].
    apply N.leb_le in R. cbn [forallb]. unfold is_ascii.
    destruct (N.ltb_spec c 128); [reflexivity|lia]. }
  destruct (N.ltb_spec c 65536) as [L|L].
  - cbn [forallb]. rewrite ascii_hex4 by exact L. reflexivity.
  - cbv zeta. apply ascii_app; cbn [forallb]; rewrite ascii_hex4; try reflexivity.
    + exact (@surrogate_lt 54 (N.shiftr (c - 65536) 10) (or_introl eq_refl)).
    + exact (@surrogate_lt 55 (c - 65536) (or_intror eq_refl)).
Qed.

Lemma ascii_basestring (s : str) :
  forallb is_ascii (Json.encode_basestring_ascii s) = true.
Proof.
  unfold Json.encode_basestring_ascii. cbn [forallb]. rewrite andb_true_l.
  apply ascii_app; [|reflexivity].
  induction s as [|c s IH]; [reflexivity|].
  cbn [flat_map]. apply ascii_app; [apply ascii_escape_char|exact IH].
Qed.

Lemma ascii_join (sep : str) (parts : list str) :
  forallb is_ascii sep = true -> Forall (fun p => forallb is_ascii p = true) parts ->
  forallb is_ascii (Json.join sep parts) = true.
Proof.
  intros Hs H. induction H as [|p ps Hp Hps IH]; [reflexivity|].
  rewrite JsonFacts.join_cons. apply ascii_app; [exact Hp|].
  clear IH. induction Hps as [|q qs Hq Hqs IH]; [reflexivity|].
  cbn [flat_map]. repeat apply ascii_app; assumption.
Qed.

Lemma ascii_newline_indent (indent : option nat) (level : nat) :
  forallb is_ascii (Json.newline_indent indent level) = true.
Proof.
  unfold Json.newline_indent. destruct indent as [n|]; [|reflexivity].
  cbn [forallb]. rewrite andb_true_l.
  induction (n * level) as [|k IH]; [reflexivity|exact IH].
Qed.

Lemma ascii_item_separator (indent : option nat) (level : nat) :
  forallb is_ascii (Json.item_separator indent level) = true.
Proof.
  unfold Json.item_separator. destruct indent as [n|] eqn:E; [|reflexivity].
  cbn [forallb]. rewrite andb_true_l. rewrite <- E. apply ascii_newline_indent.
Qed.

Lemma ascii_iterencode (fr : str -> str) (indent : option nat) (v : pyval) :
  float_free v = true ->
  forall level, forallb is_ascii (Json.iterencode fr indent level v) = true.
Proof.
  induction v as [ | b | z | fl | s | l IHl | d IHd ] using pyval_ind;
    intros Hf level.
  - reflexivity.
  - destruct b; reflexivity.
  - apply ascii_int_repr.
  - discriminate.
  - apply ascii_basestring.
  - destruct l as [|x xs]; [reflexivity|].
    change (Json.iterencode fr indent level (VList (x :: xs)))
      with (Json.LBRACKET :: Json.newline_indent indent (S level)
              ++ Json.join (Json.item_separator indent (S level))
                   (map (Json.iterencode fr indent (S level)) (x :: xs))
              ++ Json.newline_indent indent level ++ [Json.RBRACKET]).
    cbn [forallb]. rewrite andb_true_l.
    repeat apply ascii_app; try apply ascii_newline_indent; try reflexivity.
    apply ascii_join; [apply ascii_item_separator|].
    cbn [float_free] in Hf. rewrite forallb_forall in Hf.
    rewrite Forall_forall in IHl. apply Forall_forall.
    intros p Hp. apply in_map_iff in Hp. destruct Hp as (y & <- & Hy).
    apply IHl; [exact Hy|]. now apply Hf.
  - destruct d as [|[k x] d']; [reflexivity|].
    change (Json.iterencode fr indent level (VDict ((k, x) :: d')))
      with (Json.LBRACE :: Json.newline_indent indent (S level)
              ++ Json.join (Json.item_separator indent (S level))
                   (map (JsonText.pair_text fr indent level) ((k, x) :: d'))
              ++ Json.newline_indent indent level ++ [Json.RBRACE]).
    cbn [forallb]. rewrite andb_true_l.
    repeat apply ascii_app; try apply ascii_newline_indent; try reflexivity.
    apply ascii_join; [apply ascii_item_separator|].
    cbn [float_free] in Hf. rewrite forallb_forall in Hf.
    rewrite Forall_forall in IHd. apply Forall_forall.
    intros p Hp. apply in_map_iff in Hp. destruct Hp as ([k' y] & <- & Hy).
    cbn [JsonText.pair_text].
    apply ascii_app; [apply ascii_basestring|].
    apply ascii_app; [reflexivity|].
    apply (IHd (k', y) Hy). exact (Hf (k', y) Hy).
Qed.

(** *** Whitespace is not a document *)

Lemma skip_ws_blank (text : str) : forallb Json.is_ws text = true -> Json.skip_ws text = [].
Proof.
  induction text as [|c t IH]; intros H; [reflexivity|].
  cbn [forallb] in H. apply andb_true_iff in H. destruct H as [Hc Ht].
  cbn [Json.skip_ws]. rewrite Hc. now apply IH.
Qed.

Lemma loads_blank (text : str) : forallb Json.is_ws text = true -> Json.loads text = None.
Proof.
  intros H. unfold Json.loads. destruct text as [|c t]; [reflexivity|].
  destruct (c =? Json.BOM)%N; [reflexivity|].
  rewrite (skip_ws_blank _ H). reflexivity.
Qed.

(** *** What [strip] leaves *)

Lemma strip_cases (s : str) :
  strip s = []
  \/ exists x r h w,
       strip s = x :: r /\ is_space x = false
       /\ rev (strip s) = h :: w /\ is_space h = false.
Proof.
  unfold strip, rstrip. destruct (lstrip s) as [|x u] eqn:E; [now left|].
  right. pose proof (@lstrip_head s x u E) as Hx.
  cbn [rev]. rewrite (@lstrip_keeps_last (rev u) x Hx).
  rewrite rev_app_distr. cbn [rev app].
  destruct (lstrip (rev u) ++ [x]) as [|h w] eqn:E2.
  { destruct (lstrip (rev u)); discriminate. }
  exists x, (rev (lstrip (rev u))), h, w.
  split; [reflexivity|]. split; [exact Hx|]. split.
  - cbn [rev]. rewrite rev_involutive. exact E2.
  - rewrite <- (@lstrip_keeps_last (rev u) x Hx) in E2. exact (@lstrip_head _ h w E2).
Qed.

Lemma strip_idempotent (s : str) : strip (strip s) = strip s.
Proof.
  destruct (strip_cases s) as [E | (x & r & h & w & E & Hx & Er & Hh)].
  - rewrite E. reflexivity.
  - unfold strip at 1, rstrip. rewrite E at 1. rewrite (@lstrip_fixed x r Hx).
    rewrite <- E, Er. rewrite (@lstrip_fixed h w Hh). rewrite <- Er.
    apply rev_involutive.
Qed.

(** *** Digits *)

Lemma digits_uint_chars (d : Decimal.uint) :
  forallb Json.is_digit (uint_chars d) = true.
Proof. induction d; cbn; try exact IHd; reflexivity. Qed.

Lemma int_repr_positive (p : positive) :
  int_repr (Zpos p) = uint_chars (Pos.to_uint p).
Proof. reflexivity. Qed.

Lemma int_repr_positive_inj (p q : positive) :
  int_repr (Zpos p) = int_repr (Zpos q) -> p = q.
Proof.
  rewrite !int_repr_positive. intros H.
  apply DecimalPos.Unsigned.to_uint_inj.
  rewrite <- (JsonFacts.uint_of_chars_chars (Pos.to_uint p)).
  rewrite <- (JsonFacts.uint_of_chars_chars (Pos.to_uint q)).
  now rewrite H.
Qed.

Lemma split_at_digits (u u' d d' : str) :
  digit_free u = true -> digit_free u' = true ->
  forallb Json.is_digit d = true -> forallb Json.is_digit d' = true ->
  u ++ d = u' ++ d' -> u = u' /\ d = d'.
Proof.
  revert u'. induction u as [|x u IH]; intros [|y u'] Hu Hu' Hd Hd' E.
  - now split.
  - cbn [app] in E. subst d. cbn [forallb digit_free] in *.
    apply andb_true_iff in Hd. apply andb_true_iff in Hu'.
    destruct Hd as [Hd _]. destruct Hu' as [Hy _]. rewrite Hd in Hy. discriminate.
  - cbn [app] in E. subst d'. cbn [forallb digit_free] in *.
    apply andb_true_iff in Hd'. apply andb_true_iff in Hu.
    destruct Hd' as [Hd' _]. destruct Hu as [Hx _]. rewrite Hd' in Hx. discriminate.
  - cbn [app] in E. injection E as <- E.
    cbn [forallb digit_free] in Hu, Hu'.
    apply andb_true_iff in Hu. apply andb_true_iff in Hu'.
    destruct (IH u' (proj2 Hu) (proj2 Hu') Hd Hd' E) as [-> ->]. now split.
Qed.

Lemma upper_app (up : char -> str) (a b : str) :
  upper up (a ++ b) = upper up a ++ upper up b.
Proof. unfold upper. apply flat_map_app. Qed.

(* ================================================================= *)
(** ** Further properties of the handlers and the store *)

Section Further.
Variable rt : runtime.

(** X1. The catalog page shows the store as it is: on a store that holds the
    sequence [l] it renders [course_catalog.html] with exactly [l], in stored
    order, records the number of records and the status code 200 on the span,
    and changes nothing else (lines 84-92). *)
Theorem course_catalog_lists_store (rq : request) (st : state) (l : list pyval) :
  holds st l ->
  course_catalog rq st
  = (inr (Render "course_catalog.html" [("courses"%string, VList l)]),
     finished st (lit "course_catalog_route")
       [(lit "user.ip", AttrStr (remote_addr rq));
        (lit "courses.count", AttrInt (Z.of_nat (length l)));
        (lit "http.status_code", AttrInt 200)] Unset).
Proof.
  intros Hl. unfold holds in Hl. rewrite course_catalog_eq, Hl. reflexivity.
Qed.

(** X2. Save, then list: after [save_courses] has appended a record to a store
    that held [l], the catalog page shows [l] followed by that record and
    counts one record more (lines 64-69 and 84-92). *)
Theorem catalog_after_save (rq : request) (st : state) (l : list pyval) (data : pyval) :
  holds st l -> forallb storable l = true -> storable data = true ->
  exists st',
    save_courses rt data st = (inr tt, st')
    /\ fst (course_catalog rq st')
       = inr (Render "course_catalog.html" [("courses"%string, VList (l ++ [data]))])
    /\ attributes (current_span (snd (course_catalog rq st')))
       = [(lit "user.ip", AttrStr (remote_addr rq));
          (lit "courses.count", AttrInt (Z.of_nat (S (length l))));
          (lit "http.status_code", AttrInt 200)].
Proof.
  intros Hl Sl Sd. destruct (save_courses_appends rt data Hl Sl Sd) as [E H'].
  eexists. split; [exact E|].
  unfold holds in H'. rewrite course_catalog_eq, H'. cbn [len fst snd].
  rewrite length_app. cbn [length]. rewrite Nat.add_1_r. split; reflexivity.
Qed.

(** X3. The catalog page takes the length of whatever the file decodes to
    (line 90). When that is [None], a boolean or a number the request ends with
    [TypeError]; when it is a JSON object the page is rendered with the object
    itself and the number of its keys as the count. *)
Theorem course_catalog_needs_len (rq : request) (st : state) (v : pyval) :
  load_result (file st) = inr v ->
  (scalar_value v = true ->
     exists st', course_catalog rq st = (inl TypeError, st')
                 /\ only_span_failed st st' TypeError)
  /\ (forall d, v = VDict d ->
        fst (course_catalog rq st)
        = inr (Render "course_catalog.html" [("courses"%string, VDict d)])
        /\ In (lit "courses.count", AttrInt (Z.of_nat (length d)))
             (attributes (current_span (snd (course_catalog rq st))))).
Proof.
  intros Hl. rewrite course_catalog_eq, Hl. split.
  - intros Hs. destruct v; try discriminate Hs;
      (eexists; split; [reflexivity|repeat split]).
  - intros d ->. cbn [len fst snd]. split; [reflexivity|].
    cbn [finished current_span attributes]. right. left. reflexivity.
Qed.

(** X4. [save_courses] appends to what the file decodes to (line 67): when
    that is not a list the call ends with [AttributeError] before the file is
    opened for writing, so the file keeps its contents. *)
Theorem save_courses_needs_list (data : pyval) (st : state) (v : pyval) :
  load_result (file st) = inr v -> (forall l, v <> VList l) ->
  save_courses rt data st = (inl AttributeError, st).
Proof.
  intros Hl Hn. rewrite save_courses_eq, Hl.
  destruct v; try reflexivity. elim (Hn items eq_refl).
Qed.

(** X5. Save, then look up: a record saved with a code that no stored record
    has is the one the detail page shows for that code (lines 64-69 and
    138-152). *)
Theorem saved_course_is_found
  (st : state) (l : list pyval) (code name instructor semester : str) :
  holds st l -> forallb storable l = true -> forallb has_code l = true ->
  Forall (fun x => ~ matches code x) l ->
  unicode_text code = true -> unicode_text name = true ->
  unicode_text instructor = true -> unicode_text semester = true ->
  let data := new_course code name instructor semester in
  exists st' st'',
    save_courses rt data st = (inr tt, st')
    /\ course_details rt code st'
       = (inr (Render "course_details.html" [("course"%string, data)]), st'').
Proof.
  intros Hl Sl Hc Hn U1 U2 U3 U4 data.
  assert (Sd : storable data = true) by now apply storable_new_course.
  destruct (save_courses_appends rt data Hl Sl Sd) as [E H'].
  eexists. eexists. split; [exact E|].
  unfold holds in H'. rewrite course_details_eq, H'. cbn [iterate].
  rewrite next_match_prefix by assumption.
  assert (M : matches code data) by reflexivity.
  rewrite (@next_match_here data [] code M).
  rewrite (@matches_truthy rt data code M). reflexivity.
Qed.

(** X6. Codes are not checked for uniqueness. When a stored record already has
    the code, a record saved later with the same code is never shown: before and
    after the save the detail page shows the earlier record (lines 113, 142). *)
Theorem earlier_code_shadows
  (st : state) (l1 l2 : list pyval) (c data : pyval) (code : str) :
  holds st (l1 ++ c :: l2) -> forallb storable (l1 ++ c :: l2) = true ->
  storable data = true ->
  forallb has_code l1 = true -> Forall (fun x => ~ matches code x) l1 ->
  matches code c ->
  exists st',
    save_courses rt data st = (inr tt, st')
    /\ fst (course_details rt code st)
       = inr (Render "course_details.html" [("course"%string, c)])
    /\ fst (course_details rt code st')
       = inr (Render "course_details.html" [("course"%string, c)]).
Proof.
  intros Hl Sl Sd Hc Hn Hm.
  destruct (save_courses_appends rt data Hl Sl Sd) as [E H'].
  eexists. split; [exact E|].
  unfold holds in Hl, H'. rewrite !course_details_eq, Hl, H'. cbn [iterate].
  rewrite <- app_assoc. cbn [app].
  rewrite !next_match_prefix by assumption.
  rewrite !(@next_match_here c _ code Hm).
  rewrite (@matches_truthy rt c code Hm). split; reflexivity.
Qed.

(** X7. When the upper-cased first four characters of the names hold no digit,
    the code tells the position: two codes derived at different record counts are
    different, and equal codes have equal prefixes (line 113). *)
Theorem new_code_unique_positions (a b : str) (n m : nat) :
  digit_free (upper (unicode_upper rt) (slice_to 4 a)) = true ->
  digit_free (upper (unicode_upper rt) (slice_to 4 b)) = true ->
  new_code rt a n = new_code rt b m ->
  n = m /\ upper (unicode_upper rt) (slice_to 4 a) = upper (unicode_upper rt) (slice_to 4 b).
Proof.
  intros Ha Hb E. unfold new_code in E.
  replace (Z.of_nat n + 1)%Z with (Z.pos (Pos.of_succ_nat n)) in E by lia.
  replace (Z.of_nat m + 1)%Z with (Z.pos (Pos.of_succ_nat m)) in E by lia.
  destruct (split_at_digits _ _ _ _ Ha Hb
              (digits_uint_chars (Pos.to_uint (Pos.of_succ_nat n)))
              (digits_uint_chars (Pos.to_uint (Pos.of_succ_nat m))) E) as [Eu Ed].
  split; [|exact Eu].
  apply int_repr_positive_inj in Ed. now apply SuccNat2Pos.inj.
Qed.

(** X8. Without that condition codes collide although positions only grow: a
    name of at most three characters followed by the digit 1, added as one of the
    first nine records, gets the code that the name without the digit gets ten
    records later (line 113). *)
Theorem new_code_collides (s : str) (n : nat) :
  length s <= 3 -> n <= 8 ->
  new_code rt (s ++ lit "1") n = new_code rt s (n + 10).
Proof.
  intros Hs Hn. unfold new_code, slice_to.
  rewrite !firstn_all2 by (rewrite ?length_app; cbn [length lit]; cbn; lia).
  rewrite upper_app, <- app_assoc. f_equal.
  do 9 (destruct n as [|n]; [reflexivity|]). lia.
Qed.

(** X9. What [save_courses] writes is plain ASCII: every character of the new
    file is below 128, whatever characters the records hold (line 69,
    [json.dump] escaping everything else). The values hold no float. *)
Theorem saved_file_is_ascii (data : pyval) (st : state) (l : list pyval) :
  holds st l -> forallb float_free l = true -> float_free data = true ->
  exists text,
    save_courses rt data st = (inr tt, with_file st (Some text))
    /\ forallb is_ascii text = true.
Proof.
  intros Hl Fl Fd. unfold holds in Hl. rewrite save_courses_eq, Hl. cbn [Py.append].
  eexists. split; [reflexivity|].
  unfold json_dump_indent4, Json.dumps. apply ascii_iterencode.
  cbn [float_free]. rewrite forallb_app, Fl. cbn [forallb]. now rewrite Fd.
Qed.

(** X10. A file that exists but is empty or holds only whitespace is not an
    empty catalog: [load_courses] raises the decode error, whereas a missing
    file loads as the empty list (lines 57-60). *)
Theorem blank_file_is_undecodable (st : state) (text : str) :
  file st = Some text -> forallb Json.is_ws text = true ->
  load_courses st = (inl JSONDecodeError, st).
Proof.
  intros Hf Hb. rewrite load_courses_eq, Hf. cbn [load_result].
  now rewrite loads_blank.
Qed.

(** X11. A POST whose name or instructor field is missing from the form, or
    holds only whitespace, is rejected like an empty one, before the store is
    read: the form is rendered again with the error message whatever the backing
    file holds (lines 101-109). *)
Theorem missing_or_blank_field_rejected (rq : request) (st : state) :
  method rq = POST ->
  field_missing rq "name" \/ blank (form_get rq "name") = true
  \/ field_missing rq "instructor" \/ blank (form_get rq "instructor") = true ->
  add_course rt rq st
  = (inr (Render "add_course.html" []),
     with_flashes
       (finished st (lit "add_course_route") [] (Error (Text (lit "Validation failed"))))
       (flashes st ++ [(lit "error", lit "Course name and instructor are required!")])).
Proof.
  intros Hm H. apply add_course_invalid_eq; [exact Hm|].
  destruct H as [H | [H | [H | H]]].
  - left. now rewrite (form_get_missing H).
  - left. now apply strip_blank.
  - right. now rewrite (form_get_missing H).
  - right. now apply strip_blank.
Qed.

(** X12. A request that ends with an exception leaves one trace only: the span
    ends in error with that exception, while the backing file, the flashed
    messages and the log are as before. This holds for the catalog, the add-form
    and the detail handlers; the index handler never raises. *)
Theorem failed_request_leaves_only_span (rq : request) (code : str) (st : state) :
  (forall e, fst (index rq st) <> inl e)
  /\ (forall e, fst (course_catalog rq st) = inl e ->
        only_span_failed st (snd (course_catalog rq st)) e)
  /\ (forall e, fst (add_course rt rq st) = inl e ->
        only_span_failed st (snd (add_course rt rq st)) e)
  /\ (forall e, fst (course_details rt code st) = inl e ->
        only_span_failed st (snd (course_details rt code st)) e).
Proof.
  repeat split.
  - intros e H. discriminate H.
  - rewrite course_catalog_eq in *.
    destruct (load_result (file st)) as [e'|v]; [cbn in *; congruence|].
    destruct (len v); cbn in *; congruence.
  - rewrite course_catalog_eq in *.
    destruct (load_result (file st)) as [e'|v]; [reflexivity|].
    destruct (len v); reflexivity.
  - rewrite course_catalog_eq in *.
    destruct (load_result (file st)) as [e'|v]; [reflexivity|].
    destruct (len v); [reflexivity|discriminate].
  - rewrite course_catalog_eq in *.
    destruct (load_result (file st)) as [e'|v]; [cbn in *; congruence|].
    destruct (len v); [cbn in *; congruence|discriminate].
  - apply add_course_file.
  - revert H. destruct (method rq) eqn:Hm.
    + rewrite add_course_get_eq by congruence. discriminate.
    + rewrite add_course_get_eq by congruence. discriminate.
    + destruct (strip (form_get rq "name")) as [|c0 n0] eqn:En.
      { rewrite add_course_invalid_eq by auto. discriminate. }
      destruct (strip (form_get rq "instructor")) as [|c1 i1] eqn:Ei.
      { rewrite add_course_invalid_eq by auto. discriminate. }
      rewrite add_course_valid_eq
        by (unfold valid_submission; rewrite En, Ei; repeat split; congruence).
      destruct (load_result (file st)) as [e'|v]; [reflexivity|].
      destruct (len v); reflexivity.
  - revert H. destruct (method rq) eqn:Hm.
    + rewrite add_course_get_eq by congruence. discriminate.
    + rewrite add_course_get_eq by congruence. discriminate.
    + destruct (strip (form_get rq "name")) as [|c0 n0] eqn:En.
      { rewrite add_course_invalid_eq by auto. discriminate. }
      destruct (strip (form_get rq "instructor")) as [|c1 i1] eqn:Ei.
      { rewrite add_course_invalid_eq by auto. discriminate. }
      rewrite add_course_valid_eq
        by (unfold valid_submission; rewrite En, Ei; repeat split; congruence).
      destruct (load_result (file st)) as [e'|v]; [reflexivity|].
      destruct (len v); reflexivity.
  - revert H. destruct (method rq) eqn:Hm.
    + rewrite add_course_get_eq by congruence. discriminate.
    + rewrite add_course_get_eq by congruence. discriminate.
    + destruct (strip (form_get rq "name")) as [|c0 n0] eqn:En.
      { rewrite add_course_invalid_eq by auto. discriminate. }
      destruct (strip (form_get rq "instructor")) as [|c1 i1] eqn:Ei.
      { rewrite add_course_invalid_eq by auto. discriminate. }
      rewrite add_course_valid_eq
        by (unfold valid_submission; rewrite En, Ei; repeat split; congruence).
      destruct (load_result (file st)) as [e'|v]; [cbn; congruence|].
      destruct (len v); cbn; congruence.
  - apply course_details_file.
  - revert H. rewrite course_details_eq.
    destruct (load_result (file st)) as [e'|v]; [reflexivity|].
    destruct (iterate v) as [e'|items]; [reflexivity|].
    destruct (next_match items code) as [e'|course]; [reflexivity|].
    destruct (truthy (float_is_zero rt) course); discriminate.
  - revert H. rewrite course_details_eq.
    destruct (load_result (file st)) as [e'|v]; [reflexivity|].
    destruct (iterate v) as [e'|items]; [reflexivity|].
    destruct (next_match items code) as [e'|course]; [reflexivity|].
    destruct (truthy (float_is_zero rt) course); discriminate.
  - revert H. rewrite course_details_eq.
    destruct (load_result (file st)) as [e'|v]; [cbn; congruence|].
    destruct (iterate v) as [e'|items]; [cbn; congruence|].
    destruct (next_match items code) as [e'|course]; [cbn; congruence|].
    destruct (truthy (float_is_zero rt) course); discriminate.
Qed.

(** X13. The detail lookup iterates over whatever the file decodes to (line
    142). An empty list, object or string gives not-found for every code; a
    non-empty object or string yields its keys or characters, which have no
    ['code'] item, and a value that cannot be iterated ends the request at once:
    in both cases with [TypeError]. *)
Theorem course_details_on_non_list (code : str) (st : state) (v : pyval) :
  load_result (file st) = inr v ->
  (v = VList [] \/ v = VDict [] \/ v = VStr [] ->
     course_details rt code st
     = (inr (Redirect "course_catalog"), not_found_state st code))
  /\ (scalar_value v = true \/ (exists kv d, v = VDict (kv :: d))
        \/ (exists c s, v = VStr (c :: s)) ->
      exists st', course_details rt code st = (inl TypeError, st')
                  /\ only_span_failed st st' TypeError).
Proof.
  intros Hl. rewrite course_details_eq, Hl. split.
  - intros [-> | [-> | ->]]; reflexivity.
  - intros [Hs | [(kv & d & ->) | (c & s & ->)]].
    + destruct v; try discriminate Hs; (eexists; split; [reflexivity|repeat split]).
    + eexists; split; [reflexivity|repeat split].
    + eexists; split; [reflexivity|repeat split].
Qed.

(** X14. The span attribute [course.data] of line 122 is a faithful copy of
    the record: for a valid submission of Unicode text on a store that loads,
    decoding the attribute as JSON gives back the record built on lines
    114-119. *)
Theorem course_data_attribute_decodes (rq : request) (st : state) (v : pyval) (n : nat) :
  valid_submission rq ->
  unicode_text (form_get rq "name") = true ->
  unicode_text (form_get rq "instructor") = true ->
  unicode_text (form_get rq "semester") = true ->
  upper_preserves_text rt ->
  load_result (file st) = inr v -> len v = inr n ->
  let course_name := strip (form_get rq "name") in
  let instructor := strip (form_get rq "instructor") in
  let semester := strip (form_get rq "semester") in
  exists text,
    attributes (current_span (snd (add_course rt rq st)))
      = [(lit "course.data", AttrStr text)]
    /\ Json.loads text
       = Some (new_course (new_code rt course_name n) course_name instructor semester).
Proof.
  intros Hv Un Ui Us Hup Hl Hn. cbv zeta.
  rewrite (@add_course_valid_eq rt rq st Hv), Hl, Hn.
  eexists. split; [reflexivity|].
  unfold json_dumps. apply JsonFacts.loads_dumps.
  apply storable_new_course; try (now apply unicode_text_strip).
  apply unicode_text_new_code; [exact Hup|now apply unicode_text_strip].
Qed.

(** X15. What lines 101-103 keep of a form field is trimmed: it neither starts
    nor ends with a whitespace character, and trimming it again changes
    nothing. *)
Theorem submitted_fields_are_trimmed (rq : request) (key : string) :
  let t := strip (form_get rq key) in
  strip t = t
  /\ (forall x r, t = x :: r -> is_space x = false /\ is_space (last t x) = false).
Proof.
  cbv zeta. split; [apply strip_idempotent|].
  intros x r E.
  destruct (strip_cases (form_get rq key)) as [E0 | (x' & r' & h & w & E1 & Hx & Er & Hh)].
  - rewrite E0 in E. discriminate.
  - rewrite E1 in E. injection E as <- <-. split; [exact Hx|].
    rewrite <- (rev_involutive (strip (form_get rq key))), Er.
    cbn [rev]. rewrite last_last. exact Hh.
Qed.

(** X16. The layout of the file does not matter to [load_courses]: a sequence
    written by [json.dumps] with any indentation, or with none, loads as that
    sequence (lines 59-60). *)
Theorem load_courses_any_layout (st : state) (indent : option nat) (l : list pyval) :
  forallb storable l = true ->
  file st = Some (Json.dumps (float_repr rt) indent (VList l)) ->
  load_courses st = (inr (VList l), st).
Proof.
  intros Sl Hf. rewrite load_courses_eq, Hf. cbn [load_result].
  rewrite JsonFacts.loads_dumps; [reflexivity|exact Sl].
Qed.

(** X17. The scan of line 142 stops at the first match: records stored after
    it are not inspected, so the detail page shows the match even when later
    records have no code field or are not dicts at all. *)
Theorem course_details_ignores_rest
  (code : str) (st : state) (l1 l2 : list pyval) (c : pyval) :
  holds st (l1 ++ c :: l2) ->
  forallb has_code l1 = true -> Forall (fun x => ~ matches code x) l1 ->
  matches code c ->
  course_details rt code st
  = (inr (Render "course_details.html" [("course"%string, c)]),
     finished st (lit "course_details_route:" ++ code) [] Unset).
Proof.
  intros Hl Hc Hn Hm. unfold holds in Hl.
  rewrite course_details_eq, Hl. cbn [iterate].
  rewrite next_match_prefix by assumption.
  rewrite (@next_match_here c l2 code Hm).
  rewrite (@matches_truthy rt c code Hm). reflexivity.
Qed.

End Further.

(* ================================================================= *)
(** ** The claims on sample data *)

Lemma ascii_runtime_upper : upper_preserves_text ascii_runtime.
Proof.
  intros c H. cbn [ascii_runtime unicode_upper unicode_text forallb].
  rewrite H. reflexivity.
Qed.

Lemma valid_algorithms : valid_submission (submit "Algorithms" "Dr. Lee" "Fall").
Proof. repeat split; vm_compute; discriminate. Qed.

(** Why the round trip asks for Unicode text: a [str] made of the two halves
    of a surrogate pair is written as two escapes, which the decoder joins into
    one character. Text decoded from UTF-8 holds no such code points. *)
Example split_surrogate_pair_is_joined :
  Json.loads (json_dump_indent4 ascii_runtime (VStr [55357%N; 56832%N]))
  = Some (VStr [128512%N]).
Proof. reflexivity. Qed.

(** The new code of "AI" in an empty store is "AI1", whatever the runtime. *)
Example new_code_AI (rt : runtime) : new_code rt (lit "AI") 0 = lit "AI1".
Proof. reflexivity. Qed.

(** Submitting Algorithms to an empty store. *)
Lemma add_course_valid_raises_witness :
  valid_submission (submit "Algorithms" "Dr. Lee" "Fall")
  /\ exists e st',
      add_course ascii_runtime (submit "Algorithms" "Dr. Lee" "Fall") empty_store
        = (inl e, st')
      /\ file st' = file empty_store
      /\ status (current_span st') = Error (OfException e)
      /\ (forall v n, load_result (file empty_store) = inr v -> len v = inr n ->
            e = NameError "code").
Proof.
  split; [exact valid_algorithms|].
  exact (@add_course_valid_raises ascii_runtime _ empty_store valid_algorithms).
Defined.

Lemma append_then_load_witness :
  exists st' l',
    save_courses ascii_runtime algorithms empty_store = (inr tt, st')
    /\ load_courses st' = (inr (VList l'), st')
    /\ length l' = 1
    /\ last l' VNone = algorithms
    /\ getitem algorithms (lit "name") = inr (VStr (lit "Algorithms"))
    /\ getitem algorithms (lit "instructor") = inr (VStr (lit "Dr. Lee"))
    /\ getitem algorithms (lit "semester") = inr (VStr (lit "Fall"))
    /\ getitem algorithms (lit "code") = inr (VStr (lit "ALGO1")).
Proof.
  exact (@append_then_load_ends_with_submission ascii_runtime
           (submit "Algorithms" "Dr. Lee" "Fall") empty_store []
           valid_algorithms eq_refl eq_refl eq_refl ascii_runtime_upper eq_refl eq_refl).
Defined.

(** Submitting with an empty instructor. *)
Lemma add_course_rejects_blank_witness :
  exists st',
    add_course ascii_runtime (submit "Algorithms" "" "Fall") empty_store
      = (inr (Render "add_course.html" []), st')
    /\ file st' = None
    /\ status (current_span st') = Error (Text (lit "Validation failed"))
    /\ flashes st' = [(lit "error", lit "Course name and instructor are required!")].
Proof.
  exact (@add_course_rejects_blank ascii_runtime (submit "Algorithms" "" "Fall")
           empty_store eq_refl (or_intror eq_refl)).
Defined.

Lemma load_courses_witness :
  load_courses empty_store = (inr (VList []), empty_store)
  /\ load_courses algorithms_store = (inr (VList [algorithms]), algorithms_store).
Proof.
  split.
  - exact (proj1 (load_courses_missing_or_decoded ascii_runtime empty_store) eq_refl).
  - exact (proj2 (proj2 (load_courses_missing_or_decoded ascii_runtime algorithms_store))
             [algorithms] eq_refl eq_refl).
Defined.

Lemma undecodable_file_witness :
  load_courses garbled_store = (inl JSONDecodeError, garbled_store)
  /\ (forall data, save_courses ascii_runtime data garbled_store
                   = (inl JSONDecodeError, garbled_store)).
Proof.
  pose proof (@undecodable_file_is_fatal ascii_runtime garbled_store (lit "{not json")
                eq_refl eq_refl) as H.
  exact (conj (proj1 H) (proj1 (proj2 H))).
Defined.

Lemma persist_reload_witness :
  Json.loads (json_dump_indent4 ascii_runtime (VList [algorithms]))
  = Some (VList [algorithms]).
Proof.
  exact (proj1 (@persist_reload_round_trip ascii_runtime [algorithms_record] eq_refl)).
Defined.

Lemma not_CS999 : Forall (fun x => ~ matches (lit "CS999") x) [algorithms].
Proof. constructor; [|constructor]. intros H. vm_compute in H. discriminate H. Qed.

(** A store with the one record ALGO1: detail for ALGO1 and for CS999. *)
Lemma course_details_witness :
  (exists st',
      course_details ascii_runtime (lit "ALGO1") algorithms_store
        = (inr (Render "course_details.html" [("course"%string, algorithms)]), st')
      /\ file st' = file algorithms_store)
  /\ (exists st',
        course_details ascii_runtime (lit "CS999") algorithms_store
          = (inr (Redirect "course_catalog"), st')
        /\ file st' = file algorithms_store
        /\ status (current_span st') = Error (Text (lit "Course not found"))
        /\ flashes st'
           = [(lit "error", lit "No course found with code 'CS999'.")]).
Proof.
  split.
  - exact (proj1 (@course_details_finds_first ascii_runtime (lit "ALGO1") algorithms_store
                    [algorithms] eq_refl eq_refl)
             [] algorithms [] eq_refl (Forall_nil _) eq_refl).
  - exact (proj2 (@course_details_finds_first ascii_runtime (lit "CS999") algorithms_store
                    [algorithms] eq_refl eq_refl)
             not_CS999).
Defined.

Lemma store_is_append_only_witness :
  (exists st', save_courses ascii_runtime compilers algorithms_store = (inr tt, st')
               /\ file st' = Some (json_dump_indent4 ascii_runtime
                                     (VList ([algorithms] ++ [compilers])))
               /\ holds st' ([algorithms] ++ [compilers]))
  /\ extends [algorithms]
       (snd (add_course ascii_runtime (submit "Compilers" "Dr. Wu" "Spring")
               algorithms_store)).
Proof.
  pose proof (@store_is_append_only ascii_runtime algorithms_store [algorithms]
                eq_refl eq_refl) as H.
  exact (conj (proj1 H compilers eq_refl)
              (proj1 (proj2 (proj2 (proj2 H))) (submit "Compilers" "Dr. Wu" "Spring"))).
Defined.

Lemma valid_ai : valid_submission (submit "ai" "Dr. Lee" "Fall").
Proof. repeat split; vm_compute; discriminate. Qed.

Lemma new_code_short_name_witness :
  new_code ascii_runtime (lit "ai") 0 = lit "AI1"
  /\ attributes (current_span
                   (snd (add_course ascii_runtime (submit "ai" "Dr. Lee" "Fall")
                           empty_store)))
     = [(lit "course.data",
         AttrStr (json_dumps ascii_runtime
                    (new_course (lit "AI1") (lit "ai") (lit "Dr. Lee") (lit "Fall"))))].
Proof.
  exact (@new_code_short_name ascii_runtime (submit "ai" "Dr. Lee" "Fall") empty_store
           (VList []) 0 valid_ai (le_S _ _ (le_n 3)) eq_refl eq_refl).
Defined.

(** A store whose only record has no code field. *)
Lemma course_details_needs_code_field_witness :
  exists st',
    course_details ascii_runtime (lit "ALGO1") codeless_store
      = (inl (KeyError (lit "code")), st').
Proof.
  exact (proj2 (proj2 (proj2 (@course_details_needs_code_field ascii_runtime
                                (lit "ALGO1") codeless_store)))
           [] [] [] eq_refl eq_refl (Forall_nil _) eq_refl).
Defined.



(* ================================================================= *)
(** ** The further properties on sample data *)

Lemma course_catalog_lists_store_witness :
  course_catalog browse algorithms_store
  = (inr (Render "course_catalog.html" [("courses"%string, VList [algorithms])]),
     finished algorithms_store (lit "course_catalog_route")
       [(lit "user.ip", AttrStr (lit "127.0.0.1"));
        (lit "courses.count", AttrInt 1);
        (lit "http.status_code", AttrInt 200)] Unset).
Proof.
  exact (@course_catalog_lists_store browse algorithms_store [algorithms] eq_refl).
Defined.

Lemma catalog_after_save_witness :
  exists st',
    save_courses ascii_runtime compilers algorithms_store = (inr tt, st')
    /\ fst (course_catalog browse st')
       = inr (Render "course_catalog.html"
                [("courses"%string, VList ([algorithms] ++ [compilers]))])
    /\ attributes (current_span (snd (course_catalog browse st')))
       = [(lit "user.ip", AttrStr (lit "127.0.0.1"));
          (lit "courses.count", AttrInt 2);
          (lit "http.status_code", AttrInt 200)].
Proof.
  exact (@catalog_after_save ascii_runtime browse algorithms_store [algorithms] compilers
           eq_refl eq_refl eq_refl).
Defined.

Lemma course_catalog_needs_len_witness :
  (exists st', course_catalog browse number_store = (inl TypeError, st')
               /\ only_span_failed number_store st' TypeError)
  /\ fst (course_catalog browse object_store)
     = inr (Render "course_catalog.html"
              [("courses"%string, VDict [(lit "a", VInt 1)])]).
Proof.
  split.
  - exact (proj1 (@course_catalog_needs_len browse number_store (VInt 5) eq_refl) eq_refl).
  - exact (proj1 (proj2 (@course_catalog_needs_len browse object_store
                           (VDict [(lit "a", VInt 1)]) eq_refl)
                    [(lit "a", VInt 1)] eq_refl)).
Defined.

Lemma not_a_list : forall l, VDict [] <> VList l.
Proof. intros l H. discriminate H. Qed.

Lemma save_courses_needs_list_witness :
  save_courses ascii_runtime algorithms empty_object_store
  = (inl AttributeError, empty_object_store).
Proof.
  exact (@save_courses_needs_list ascii_runtime algorithms empty_object_store (VDict [])
           eq_refl not_a_list).
Defined.

Lemma not_COMP2 : Forall (fun x => ~ matches (lit "COMP2") x) [algorithms].
Proof. constructor; [|constructor]. intros H. vm_compute in H. discriminate H. Qed.

Lemma saved_course_is_found_witness :
  exists st' st'',
    save_courses ascii_runtime compilers algorithms_store = (inr tt, st')
    /\ course_details ascii_runtime (lit "COMP2") st'
       = (inr (Render "course_details.html" [("course"%string, compilers)]), st'').
Proof.
  exact (@saved_course_is_found ascii_runtime algorithms_store [algorithms]
           (lit "COMP2") (lit "Compilers") (lit "Dr. Wu") (lit "Spring")
           eq_refl eq_refl eq_refl not_COMP2 eq_refl eq_refl eq_refl eq_refl).
Defined.

Lemma earlier_code_shadows_witness :
  exists st',
    save_courses ascii_runtime algorithms_again algorithms_store = (inr tt, st')
    /\ fst (course_details ascii_runtime (lit "ALGO1") algorithms_store)
       = inr (Render "course_details.html" [("course"%string, algorithms)])
    /\ fst (course_details ascii_runtime (lit "ALGO1") st')
       = inr (Render "course_details.html" [("course"%string, algorithms)]).
Proof.
  exact (@earlier_code_shadows ascii_runtime algorithms_store [] [] algorithms
           algorithms_again (lit "ALGO1")
           eq_refl eq_refl eq_refl eq_refl (Forall_nil _) eq_refl).
Defined.

Lemma new_code_unique_positions_witness :
  0 = 0
  /\ upper (unicode_upper ascii_runtime) (slice_to 4 (lit "Algorithms"))
     = upper (unicode_upper ascii_runtime) (slice_to 4 (lit "Algol")).
Proof.
  exact (@new_code_unique_positions ascii_runtime (lit "Algorithms") (lit "Algol") 0 0
           eq_refl eq_refl eq_refl).
Defined.

Lemma new_code_collides_witness :
  new_code ascii_runtime (lit "AB" ++ lit "1") 0 = new_code ascii_runtime (lit "AB") (0 + 10).
Proof.
  exact (@new_code_collides ascii_runtime (lit "AB") 0 (le_S _ _ (le_n 2)) (Nat.le_0_l 8)).
Defined.

Lemma saved_file_is_ascii_witness :
  exists text,
    save_courses ascii_runtime cafe algorithms_store
      = (inr tt, with_file algorithms_store (Some text))
    /\ forallb is_ascii text = true.
Proof.
  exact (@saved_file_is_ascii ascii_runtime cafe algorithms_store [algorithms]
           eq_refl eq_refl eq_refl).
Defined.

Lemma blank_file_is_undecodable_witness :
  load_courses whitespace_store = (inl JSONDecodeError, whitespace_store).
Proof.
  exact (@blank_file_is_undecodable whitespace_store [32%N; 10%N; 9%N] eq_refl eq_refl).
Defined.

Lemma no_name_field : field_missing nameless_request "name".
Proof.
  intros kv [<- | []]. intros H. vm_compute in H. discriminate H.
Qed.

Lemma missing_or_blank_field_rejected_witness :
  fst (add_course ascii_runtime blank_name_request garbled_store)
    = inr (Render "add_course.html" [])
  /\ fst (add_course ascii_runtime nameless_request garbled_store)
     = inr (Render "add_course.html" []).
Proof.
  split.
  - exact (f_equal fst (@missing_or_blank_field_rejected ascii_runtime blank_name_request
                          garbled_store eq_refl (or_intror (or_introl eq_refl)))).
  - exact (f_equal fst (@missing_or_blank_field_rejected ascii_runtime nameless_request
                          garbled_store eq_refl (or_introl no_name_field))).
Defined.

Lemma course_details_on_non_list_witness :
  course_details ascii_runtime (lit "ALGO1") empty_object_store
    = (inr (Redirect "course_catalog"), not_found_state empty_object_store (lit "ALGO1"))
  /\ exists st', course_details ascii_runtime (lit "ALGO1") object_store
                   = (inl TypeError, st')
                 /\ only_span_failed object_store st' TypeError.
Proof.
  split.
  - exact (proj1 (@course_details_on_non_list ascii_runtime (lit "ALGO1")
                    empty_object_store (VDict []) eq_refl)
             (or_intror (or_introl eq_refl))).
  - exact (proj2 (@course_details_on_non_list ascii_runtime (lit "ALGO1")
                    object_store (VDict [(lit "a", VInt 1)]) eq_refl)
             (or_intror (or_introl
                (ex_intro _ (lit "a", VInt 1) (ex_intro _ [] eq_refl))))).
Defined.

Lemma course_data_attribute_decodes_witness :
  exists text,
    attributes (current_span
                  (snd (add_course ascii_runtime (submit "Algorithms" "Dr. Lee" "Fall")
                          empty_store)))
      = [(lit "course.data", AttrStr text)]
    /\ Json.loads text = Some algorithms.
Proof.
  exact (@course_data_attribute_decodes ascii_runtime
           (submit "Algorithms" "Dr. Lee" "Fall") empty_store (VList []) 0
           valid_algorithms eq_refl eq_refl eq_refl ascii_runtime_upper eq_refl eq_refl).
Defined.

Lemma load_courses_any_layout_witness :
  load_courses compact_store = (inr (VList [algorithms]), compact_store).
Proof.
  exact (@load_courses_any_layout ascii_runtime compact_store None [algorithms]
           eq_refl eq_refl).
Defined.

Lemma course_details_ignores_rest_witness :
  course_details ascii_runtime (lit "ALGO1") ragged_store
  = (inr (Render "course_details.html" [("course"%string, algorithms)]),
     finished ragged_store (lit "course_details_route:" ++ lit "ALGO1") [] Unset).
Proof.
  exact (@course_details_ignores_rest ascii_runtime (lit "ALGO1") ragged_store
           [] [VInt 5] algorithms eq_refl eq_refl (Forall_nil _) eq_refl).
Defined.
